(** * Ledger and transfer subsystem of biometric-wallet

    Shallow embedding of the wallet/transaction procedures of
    [server/db.ts], [routers/wallets.ts], [routers/crypto.ts] and the
    transactions router ([transactionsRouter]).

    Modelling choices:
    - The database is a record holding the [wallets] and [transactions]
      tables as lists in insertion order, and the AUTO_INCREMENT counter of
      [wallets].  SQL [UPDATE ... WHERE id = ?] is a [map] over the table.
    - [decimal(18,8)] columns hold integers [Z] counting units of 10^-8,
      at most 10^18 - 1 in absolute value.  The driver hands them to the
      code as the decimal string with 8 decimals.
    - JavaScript numbers are IEEE-754 binary64 values, the [spec_float] of
      the Standard Library with 53 bits of precision and [emax] 1024; [+],
      [-], [*], [/] and [<] are its [SFadd], [SFsub], [SFmul], [SFdiv] and
      [SFltb].  [parseFloat] of a decimal string rounds its exact value to
      the nearest double (ties to even); [Number.prototype.toString] writes
      the shortest decimal that reads back as the same double.
    - Amount inputs ([z.string()]) are decimal numerals [[-]digits[.digits]],
      given by their digits as an integer and the number of decimals.
    - MySQL (strict mode) rounds a decimal string to 8 decimals, half away
      from zero, and rejects the statement when the result does not fit
      [decimal(18,8)], when the string is not a number ("NaN",
      "Infinity"), when an [int] column gets a value outside 32 bits, or a
      [varchar(n)] / [text] column a longer string (strings are ASCII).  A
      rejected statement changes nothing and makes the awaited call throw.
    - Every [await] of a database function is one atomic database call.  A
      procedure is a term of the resumption monad [prog]: [Call upd k]
      performs the call [upd] atomically on the database and resumes with
      [k] applied to the database it read ([Some]) or to [None] when the
      call threw.  The [try { ... } catch] of every procedure is
      [try_catch]; writes done before the throw stay.  Running one procedure
      alone is [run]; interleaving several is [interleave].
    - The database is always reachable: reads do not throw. *)

From Stdlib Require Import ZArith List String Bool Lia Permutation.
From Stdlib Require Import Floats.SpecFloat.
Import ListNotations.
Open Scope string_scope.
Open Scope Z_scope.

(** ** JavaScript numbers *)

Definition double := spec_float.

Definition prec : Z := 53.
Definition emax : Z := 1024.

Definition dadd : double -> double -> double := SFadd prec emax.
Definition dsub : double -> double -> double := SFsub prec emax.
Definition dmul : double -> double -> double := SFmul prec emax.
Definition ddiv : double -> double -> double := SFdiv prec emax.
(** [x < y] and [x === y] on numbers. *)
Definition dltb : double -> double -> bool := SFltb.
Definition deqb : double -> double -> bool := SFeqb.

(** [n / d >= 2 ^ k], for [n, d > 0]. *)
Definition ge_pow2 (n d k : Z) : bool :=
  d * 2 ^ Z.max k 0 <=? n * 2 ^ Z.max (- k) 0.

(** [floor (log2 (n / d))], for [n, d > 0]. *)
Definition floor_log2 (n d : Z) : Z :=
  let L0 := Z.log2 n - Z.log2 d in
  if ge_pow2 n d L0 then L0 else L0 - 1.

(** The double nearest to [n / d] (ties to an even mantissa), with sign
    [neg], for [n >= 0] and [d > 0]: a mantissa of 53 bits, or a subnormal
    one at the least exponent -1074; zero below half the least subnormal,
    infinity above the greatest finite double. *)
Definition round_ratio (neg : bool) (n d : Z) : double :=
  if n <=? 0 then S754_zero neg else
  let e := Z.max (floor_log2 n d - 52) (-1074) in
  let num := n * 2 ^ Z.max (- e) 0 in
  let den := d * 2 ^ Z.max e 0 in
  let q := num / den in
  let r := num mod den in
  let q' := match Z.compare (2 * r) den with
            | Lt => q
            | Gt => q + 1
            | Eq => if Z.even q then q else q + 1
            end in
  if q' =? 0 then S754_zero neg
  else if q' =? 2 ^ 53 then
    (if e + 1 <=? 971 then S754_finite neg (Z.to_pos (2 ^ 52)) (e + 1)
     else S754_infinity neg)
  else if e <=? 971 then S754_finite neg (Z.to_pos q') e
  else S754_infinity neg.

(** The double nearest to [x / d], for [d > 0]. *)
Definition ratio_to_double (x d : Z) : double :=
  if x <? 0 then round_ratio true (- x) d else round_ratio false x d.

(** The number literals [0] and [100]. *)
Definition js_zero : double := S754_zero false.
Definition js_hundred : double := ratio_to_double 100 1.

Fixpoint digits10_aux (fuel : nat) (n : Z) : Z :=
  match fuel with
  | O => 1
  | S f => if n <? 10 then 1 else 1 + digits10_aux f (n / 10)
  end.

(** The number of decimal digits of [n > 0]. *)
Definition digits10 (n : Z) : Z := digits10_aux (Z.to_nat (Z.log2 n + 1)) n.

(** [n / d >= 10 ^ k], for [n, d > 0]. *)
Definition ge_pow10 (n d k : Z) : bool :=
  d * 10 ^ Z.max k 0 <=? n * 10 ^ Z.max (- k) 0.

(** [floor (log10 (n / d))], for [n, d > 0]. *)
Definition floor_log10 (n d : Z) : Z :=
  let p0 := digits10 n - digits10 d in
  if ge_pow10 n d p0 then p0 else p0 - 1.

Definition double_eqb (x y : double) : bool :=
  match x, y with
  | S754_zero a, S754_zero b => Bool.eqb a b
  | S754_infinity a, S754_infinity b => Bool.eqb a b
  | S754_nan, S754_nan => true
  | S754_finite a m e, S754_finite b m' e' => Bool.eqb a b && Pos.eqb m m' && Z.eqb e e'
  | _, _ => false
  end.

(** The decimal [s * 10 ^ t] read as a double, with sign [neg]. *)
Definition sci_to_double (neg : bool) (s t : Z) : double :=
  round_ratio neg (s * 10 ^ Z.max t 0) (10 ^ Z.max (- t) 0).

(** Step 5 of Number::toString: the least number [k] of significant digits
    for which a [k]-digit [s * 10 ^ t] reads back as [x] (whose absolute
    value is [n / d], with [10 ^ p <= n / d < 10 ^ (p + 1)]); of two such
    [s], the one nearer to [x], and of two equally near, the even one.
    Only the [k]-digit neighbours of [x], [floor] and [floor + 1], can be
    nearest; 17 digits always suffice. *)
Fixpoint shortest_aux (fuel : nat) (k : Z) (neg : bool) (n d p : Z) (x : double) : Z * Z :=
  let t := p + 1 - k in
  let num := n * 10 ^ Z.max (- t) 0 in
  let den := d * 10 ^ Z.max t 0 in
  let s := num / den in
  let r := num mod den in
  let lo_ok := double_eqb (sci_to_double neg s t) x in
  let hi_ok := negb (r =? 0) && double_eqb (sci_to_double neg (s + 1) t) x in
  match fuel with
  | O => (s, t)
  | S f =>
    if lo_ok && hi_ok then
      match Z.compare (2 * r) den with
      | Lt => (s, t)
      | Gt => (s + 1, t)
      | Eq => if Z.even s then (s, t) else (s + 1, t)
      end
    else if lo_ok then (s, t)
    else if hi_ok then (s + 1, t)
    else shortest_aux f (k + 1) neg n d p x
  end.

(** [x.toString()] as a decimal value: [Some (s, t)] is [s * 10 ^ t];
    [None] is "NaN", "Infinity" or "-Infinity".  [-0] prints "0". *)
Definition js_number_value (x : double) : option (Z * Z) :=
  match x with
  | S754_zero _ => Some (0, 0)
  | S754_infinity _ | S754_nan => None
  | S754_finite neg m e =>
    let n := Zpos m * 2 ^ Z.max e 0 in
    let d := 2 ^ Z.max (- e) 0 in
    let '(s, t) := shortest_aux 17 1 neg n d (floor_log10 n d) x in
    Some (if neg then - s else s, t)
  end.

(** ** MySQL column types *)

(** The largest [decimal(18,8)] value, in units of 10^-8. *)
Definition decimal_limit : Z := 10 ^ 18 - 1.

(** A decimal value [n / d] ([n >= 0], [d > 0], sign [neg]) stored into a
    [decimal(18,8)] column: rounded to 8 decimals, half away from zero;
    [None] when it does not fit (the statement is rejected). *)
Definition dec_round (neg : bool) (n d : Z) : option Z :=
  let u := (2 * n * 10 ^ 8 + d) / (2 * d) in
  if u <=? decimal_limit then Some (if neg then - u else u) else None.

(** An amount string: the numeral [num_digits * 10 ^ (- num_scale)]. *)
Record numeral := mkNumeral { num_digits : Z; num_scale : nat }.

(** A [decimal(18,8)] value as the driver hands it over ("12.50000000"). *)
Definition units (v : Z) : numeral := mkNumeral v 8.

Definition parseFloat (a : numeral) : double :=
  ratio_to_double (num_digits a) (10 ^ Z.of_nat (num_scale a)).

(** The [decimal(18,8)] value MySQL stores for the amount string [a]. *)
Definition numeral_to_decimal (a : numeral) : option Z :=
  dec_round (num_digits a <? 0) (Z.abs (num_digits a)) (10 ^ Z.of_nat (num_scale a)).

(** The [decimal(18,8)] value MySQL stores for the string [x.toString()]. *)
Definition number_to_decimal (x : double) : option Z :=
  match js_number_value x with
  | Some (s, t) => dec_round (s <? 0) (Z.abs s * 10 ^ Z.max t 0) (10 ^ Z.max (- t) 0)
  | None => None
  end.

Definition fits_int (v : Z) : bool := (-2147483648 <=? v) && (v <=? 2147483647).
Definition fits_varchar (n : Z) (s : string) : bool := Z.of_nat (String.length s) <=? n.
Definition fits_text (s : string) : bool := Z.of_nat (String.length s) <=? 65535.

(** A nullable column: NULL always fits. *)
Definition opt_ok {A} (p : A -> bool) (o : option A) : bool :=
  match o with Some x => p x | None => true end.

(** ** Data model ([drizzle/schema], migration [0001_icy_nightmare.sql]) *)

Record wallet := mkWallet {
  w_id : Z;
  userId : Z;
  currencyCode : string;
  balance : Z;
  address : option string;
  isActive : bool
}.

Inductive transactionType := transfer_t | deposit_t | withdrawal_t | exchange_t.
Inductive txStatus := pending | completed | failed | cancelled.

(** A row of [transactions] as stored ([amount] and [fee] in units of
    10^-8). *)
Record transaction := mkTransaction {
  fromUserId : option Z;
  toUserId : option Z;
  fromWalletId : Z;
  toWalletId : option Z;
  amount : Z;
  fee : Z;
  txType : transactionType;
  status : txStatus;
  blockchainTxHash : option string;
  description : option string
}.

(** The [InsertTransaction] object the code builds; [amount] and [fee] are
    the strings it passes. *)
Record InsertTransaction := mkInsertTransaction {
  ins_fromUserId : option Z;
  ins_toUserId : option Z;
  ins_fromWalletId : Z;
  ins_toWalletId : option Z;
  ins_amount : numeral;
  ins_fee : numeral;
  ins_type : transactionType;
  ins_status : txStatus;
  ins_blockchainTxHash : option string;
  ins_description : option string
}.

Record db := mkDb {
  wallets : list wallet;
  transactions : list transaction;
  next_wallet_id : Z
}.

(** The answer object [{ success, message }] / [{ success: false, error }]. *)
Inductive response :=
| Success (message : string)
| Failure (error : string).

(** The row MySQL stores for an [InsertTransaction], or [None] when a value
    does not fit its column ([int], [decimal(18,8)], [varchar(255)],
    [text]). *)
Definition store_transaction (t : InsertTransaction) : option transaction :=
  match numeral_to_decimal (ins_amount t), numeral_to_decimal (ins_fee t) with
  | Some a, Some f =>
    if opt_ok fits_int (ins_fromUserId t) && opt_ok fits_int (ins_toUserId t)
       && fits_int (ins_fromWalletId t) && opt_ok fits_int (ins_toWalletId t)
       && opt_ok (fits_varchar 255) (ins_blockchainTxHash t)
       && opt_ok fits_text (ins_description t)
    then Some (mkTransaction (ins_fromUserId t) (ins_toUserId t) (ins_fromWalletId t)
                 (ins_toWalletId t) a f (ins_type t) (ins_status t)
                 (ins_blockchainTxHash t) (ins_description t))
    else None
  | _, _ => None
  end.

(** ** Resumption monad of awaited database calls *)

Inductive prog (A : Type) : Type :=
| Ret : A -> prog A
| Call : (db -> option db) -> (option db -> prog A) -> prog A.
Arguments Ret {A} _.
Arguments Call {A} _ _.

Fixpoint bind {A B} (p : prog A) (f : A -> prog B) : prog B :=
  match p with
  | Ret a => f a
  | Call upd k => Call upd (fun r => bind (k r) f)
  end.

(** Run one procedure alone against the database. *)
Fixpoint run {A} (p : prog A) (d : db) : A * db :=
  match p with
  | Ret a => (a, d)
  | Call upd k =>
    match upd d with
    | Some d' => run (k (Some d)) d'
    | None => run (k None) d
    end
  end.

(** Code inside a [try] block has results [option A]; [None] is a thrown
    exception, which skips the rest of the block. *)
Definition db_call {X} (upd : db -> option db) (f : db -> X) : prog (option X) :=
  Call upd (fun r => Ret (option_map f r)).

Definition ebind {X A} (c : prog (option X)) (k : X -> prog (option A)) : prog (option A) :=
  bind c (fun r => match r with Some x => k x | None => Ret None end).

Notation "x <- c ;; k" := (ebind c (fun x => k))
  (at level 61, c at next level, right associativity).
Notation "c ;;; k" := (ebind c (fun _ => k))
  (at level 61, right associativity).

Definition return_ {A} (a : A) : prog (option A) := Ret (Some a).

(** [try { body } catch { return handler }]. *)
Definition try_catch {A} (body : prog (option A)) (handler : A) : prog A :=
  bind body (fun r => match r with Some a => Ret a | None => Ret handler end).

(** ** Database functions ([server/db.ts]) *)

Definition set_balance (w : wallet) (b : Z) : wallet :=
  mkWallet (w_id w) (userId w) (currencyCode w) b (address w) (isActive w).

Definition find_wallet (ws : list wallet) (walletId : Z) : option wallet :=
  find (fun w => Z.eqb (w_id w) walletId) ws.

Definition user_wallets (ws : list wallet) (uid : Z) : list wallet :=
  filter (fun w => Z.eqb (userId w) uid) ws.

(** The row [walletId] of [UPDATE wallets SET balance = newBalance WHERE id = walletId]. *)
Definition upd_wallet (walletId newBalance : Z) (w : wallet) : wallet :=
  if Z.eqb (w_id w) walletId then set_balance w newBalance else w.

Definition db_update_balance (d : db) (walletId : Z) (newBalance : Z) : db :=
  mkDb (map (upd_wallet walletId newBalance) (wallets d))
       (transactions d) (next_wallet_id d).

Definition db_insert_wallet (d : db) (uid : Z) (code : string) (addr : option string) : db :=
  mkDb (wallets d ++ [mkWallet (next_wallet_id d) uid code 0 addr true])
       (transactions d) (next_wallet_id d + 1).

Definition db_insert_transaction (d : db) (t : transaction) : db :=
  mkDb (wallets d) (transactions d ++ [t]) (next_wallet_id d).

(** [getWalletById]: [select ... where id = walletId limit 1]. *)
Definition getWalletById (walletId : Z) : prog (option (option wallet)) :=
  db_call Some (fun d => find_wallet (wallets d) walletId).

(** [getUserWallets]: [select ... where userId = userId]. *)
Definition getUserWallets (uid : Z) : prog (option (list wallet)) :=
  db_call Some (fun d => user_wallets (wallets d) uid).

(** [updateWalletBalance(walletId, newBalance)], called with
    [newBalance = x.toString()] for the number [x]. *)
Definition updateWalletBalance (walletId : Z) (x : double) : prog (option unit) :=
  db_call (fun d => match number_to_decimal x with
                    | Some v => Some (db_update_balance d walletId v)
                    | None => None
                    end)
          (fun _ => tt).

(** [createWallet]: insert with balance "0" and isActive true; the new id
    is the AUTO_INCREMENT counter, an [int]. *)
Definition createWallet (uid : Z) (code : string) (addr : option string) : prog (option unit) :=
  db_call (fun d => if fits_int uid && fits_int (next_wallet_id d) && fits_varchar 10 code
                       && opt_ok (fits_varchar 255) addr
                    then Some (db_insert_wallet d uid code addr) else None)
          (fun _ => tt).

(** [createTransaction]: insert into [transactions]. *)
Definition createTransaction (t : InsertTransaction) : prog (option unit) :=
  db_call (fun d => option_map (db_insert_transaction d) (store_transaction t))
          (fun _ => tt).

(** ** [transactionsRouter.transfer] *)

Record transfer_input := mkTransferInput {
  in_toUserId : Z;
  in_fromWalletId : Z;
  in_toWalletId : Z;
  in_amount : numeral;
  in_description : option string
}.

(** Its [transactionData]. *)
Definition transfer_data (ctx_user : Z) (input : transfer_input) : InsertTransaction :=
  mkInsertTransaction (Some ctx_user) (Some (in_toUserId input))
    (in_fromWalletId input) (Some (in_toWalletId input))
    (in_amount input) (mkNumeral 0 0) transfer_t completed None (in_description input).

Definition transfer (ctx_user : Z) (input : transfer_input) : prog response :=
  try_catch (
    fromWallet <- getWalletById (in_fromWalletId input) ;;
    match fromWallet with
    | None => return_ (Failure "Invalid source wallet")
    | Some fw =>
      if negb (Z.eqb (userId fw) ctx_user) then return_ (Failure "Invalid source wallet") else
      toWallet <- getWalletById (in_toWalletId input) ;;
      match toWallet with
      | None => return_ (Failure "Invalid destination wallet")
      | Some tw =>
        let bal := parseFloat (units (balance fw)) in
        let amt := parseFloat (in_amount input) in
        if dltb bal amt then return_ (Failure "Insufficient balance") else
        createTransaction (transfer_data ctx_user input) ;;;
        let newFromBalance := dsub bal amt in
        let toBalance := parseFloat (units (balance tw)) in
        let newToBalance := dadd toBalance amt in
        updateWalletBalance (in_fromWalletId input) newFromBalance ;;;
        updateWalletBalance (in_toWalletId input) newToBalance ;;;
        return_ (Success "Transfer completed successfully")
      end
    end)
  (Failure "Transfer failed").

(** [input.description || default]: an absent or empty description is
    replaced by the default. *)
Definition or_default (s : option string) (dflt : string) : string :=
  match s with
  | Some x => if String.eqb x "" then dflt else x
  | None => dflt
  end.

(** ** [transactionsRouter.recordDeposit] and [recordWithdrawal] *)

Record wallet_op_input := mkWalletOpInput {
  op_walletId : Z;
  op_amount : numeral;
  op_blockchainTxHash : option string;
  op_description : option string
}.

Definition deposit_data (ctx_user : Z) (input : wallet_op_input) : InsertTransaction :=
  mkInsertTransaction None (Some ctx_user) (op_walletId input) (Some (op_walletId input))
    (op_amount input) (mkNumeral 0 0) deposit_t completed (op_blockchainTxHash input)
    (Some (or_default (op_description input) "Deposit")).

Definition recordDeposit (ctx_user : Z) (input : wallet_op_input) : prog response :=
  try_catch (
    wallet <- getWalletById (op_walletId input) ;;
    match wallet with
    | None => return_ (Failure "Invalid wallet")
    | Some w =>
      if negb (Z.eqb (userId w) ctx_user) then return_ (Failure "Invalid wallet") else
      createTransaction (deposit_data ctx_user input) ;;;
      let newBalance := dadd (parseFloat (units (balance w))) (parseFloat (op_amount input)) in
      updateWalletBalance (op_walletId input) newBalance ;;;
      return_ (Success "Deposit recorded successfully")
    end)
  (Failure "Failed to record deposit").

Definition withdrawal_data (ctx_user : Z) (input : wallet_op_input) : InsertTransaction :=
  mkInsertTransaction (Some ctx_user) None (op_walletId input) (Some (op_walletId input))
    (op_amount input) (mkNumeral 0 0) withdrawal_t completed (op_blockchainTxHash input)
    (Some (or_default (op_description input) "Withdrawal")).

Definition recordWithdrawal (ctx_user : Z) (input : wallet_op_input) : prog response :=
  try_catch (
    wallet <- getWalletById (op_walletId input) ;;
    match wallet with
    | None => return_ (Failure "Invalid wallet")
    | Some w =>
      if negb (Z.eqb (userId w) ctx_user) then return_ (Failure "Invalid wallet") else
      let bal := parseFloat (units (balance w)) in
      let amt := parseFloat (op_amount input) in
      if dltb bal amt then return_ (Failure "Insufficient balance") else
      createTransaction (withdrawal_data ctx_user input) ;;;
      let newBalance := dsub bal amt in
      updateWalletBalance (op_walletId input) newBalance ;;;
      return_ (Success "Withdrawal recorded successfully")
    end)
  (Failure "Failed to record withdrawal").

(** ** [cryptoRouter.initiateWithdrawal] *)

Inductive cryptocurrency := BTC | ETH.

Definition crypto_code (c : cryptocurrency) : string :=
  match c with BTC => "BTC" | ETH => "ETH" end.

Record crypto_withdrawal_input := mkCryptoWithdrawalInput {
  cw_cryptocurrency : cryptocurrency;
  cw_amount : numeral;
  cw_destinationAddress : string
}.

(** The mock fee "0.0005". *)
Definition crypto_withdrawal_fee : numeral := mkNumeral 5 4.

Definition crypto_withdrawal_data (ctx_user : Z) (w : wallet)
    (input : crypto_withdrawal_input) : InsertTransaction :=
  mkInsertTransaction (Some ctx_user) None (w_id w) (Some (w_id w))
    (cw_amount input) crypto_withdrawal_fee withdrawal_t pending None
    (Some ("Withdrawal to " ++ substring 0 10 (cw_destinationAddress input) ++ "...")).

Definition initiateWithdrawal (ctx_user : Z) (input : crypto_withdrawal_input) : prog response :=
  try_catch (
    ws <- getUserWallets ctx_user ;;
    match find (fun w => String.eqb (currencyCode w) (crypto_code (cw_cryptocurrency input))) ws with
    | None => return_ (Failure "Wallet not found")
    | Some w =>
      let bal := parseFloat (units (balance w)) in
      let amt := parseFloat (cw_amount input) in
      if dltb bal amt then return_ (Failure "Insufficient balance") else
      createTransaction (crypto_withdrawal_data ctx_user w input) ;;;
      return_ (Success "Withdrawal initiated successfully")
    end)
  (Failure "Failed to initiate withdrawal").

(** ** [walletsRouter.create]

    The input schema [z.string().min(1).max(10)] rejects another currency
    code before the procedure runs: tRPC answers a BAD_REQUEST error. *)

Definition valid_currency_code (code : string) : bool :=
  (1 <=? Z.of_nat (String.length code)) && (Z.of_nat (String.length code) <=? 10).

Definition create (ctx_user : Z) (code : string) (addr : option string) : prog response :=
  if negb (valid_currency_code code) then Ret (Failure "BAD_REQUEST") else
  try_catch (
    existingWallets <- getUserWallets ctx_user ;;
    let exists_ := existsb (fun w => String.eqb (currencyCode w) code) existingWallets in
    if exists_ then return_ (Failure ("Wallet for " ++ code ++ " already exists")) else
    createWallet ctx_user code addr ;;;
    return_ (Success (code ++ " wallet created successfully")))
  (Failure "Failed to create wallet").

(** ** [walletsRouter.getDistribution]

    [Some] is the [distribution] of a successful answer. *)

Record dist_entry := mkDistEntry {
  d_currency : string;
  d_balance : Z;
  percentage : double
}.

(** [wallets.reduce((sum, w) => sum + parseFloat(w.balance), 0)]. *)
Definition total_value (ws : list wallet) : double :=
  fold_left (fun sum w => dadd sum (parseFloat (units (balance w)))) ws js_zero.

Definition getDistribution (ctx_user : Z) : prog (option (list dist_entry)) :=
  try_catch (
    ws <- getUserWallets ctx_user ;;
    let totalValue := total_value ws in
    if deqb totalValue js_zero then return_ (Some []) else
    return_ (Some (map (fun w => mkDistEntry (currencyCode w) (balance w)
                                  (dmul (ddiv (parseFloat (units (balance w))) totalValue)
                                        js_hundred))
                       ws)))
  None.

(** ** Interleaving two requests at their await points

    [true] in the schedule lets the first request perform its next database
    call, [false] the second; a finished request ignores its turns. *)

Fixpoint interleave {A B} (sched : list bool) (p : prog A) (q : prog B) (d : db)
  : prog A * prog B * db :=
  match sched with
  | [] => (p, q, d)
  | true :: s =>
    match p with
    | Ret _ => interleave s p q d
    | Call upd k =>
      match upd d with
      | Some d' => interleave s (k (Some d)) q d'
      | None => interleave s (k None) q d
      end
    end
  | false :: s =>
    match q with
    | Ret _ => interleave s p q d
    | Call upd k =>
      match upd d with
      | Some d' => interleave s p (k (Some d)) d'
      | None => interleave s p (k None) d
      end
    end
  end.

(** ** Auxiliary definitions for the statements *)

(** The balance of wallet [walletId], if it exists. *)
Definition balance_of (d : db) (walletId : Z) : option Z :=
  option_map balance (find_wallet (wallets d) walletId).

Definition nonneg_balances (d : db) : Prop :=
  Forall (fun w => 0 <= balance w) (wallets d).

(** The wallet [initiateWithdrawal] picks: the caller's first wallet in the
    requested currency. *)
Definition crypto_wallet_of (d : db) (ctx_user : Z) (c : cryptocurrency) : option wallet :=
  find (fun w => String.eqb (currencyCode w) (crypto_code c)) (user_wallets (wallets d) ctx_user).

(** A small ledger (balances in units of 10^-8): user 1 holds wallet 1
    (USD, 100), user 2 wallet 2 (USD, 5), user 3 the inactive wallet 3
    (USD, 0). *)
Definition sample_db : db :=
  mkDb [mkWallet 1 1 "USD" 100 None true;
        mkWallet 2 2 "USD" 5 None true;
        mkWallet 3 3 "USD" 0 None false] [] 4.

(** A ledger with user 1's BTC wallet 1 holding 100 units. *)
Definition crypto_db : db :=
  mkDb [mkWallet 1 1 "BTC" 100 (Some "1A1z7agoat4FqCnf4Xy2MQUqLCWCuqq2em") true] [] 2.

(** Two transfers from wallet 1 (balance [b], user 1) by user 1: [a1] to
    wallet 2 and [a2] to wallet 3, both empty. *)
Definition race_db (b : Z) : db :=
  mkDb [mkWallet 1 1 "USD" b None true;
        mkWallet 2 2 "USD" 0 None true;
        mkWallet 3 3 "USD" 0 None true] [] 4.

Definition race_first (a1 : numeral) : prog response := transfer 1 (mkTransferInput 2 1 2 a1 None).
Definition race_second (a2 : numeral) : prog response := transfer 1 (mkTransferInput 3 1 3 a2 None).

(** Both requests read the two wallets, then the first one writes, then the
    second one. *)
Definition race_schedule : list bool :=
  [true; true; false; false; true; true; true; false; false; false].

(** ** Sequences of requests

    The mutating procedures of the ledger as requests; [exec_ops] runs them
    one after the other. *)

Inductive op :=
| OpCreate (u : Z) (code : string) (addr : option string)
| OpTransfer (u : Z) (input : transfer_input)
| OpDeposit (u : Z) (input : wallet_op_input)
| OpWithdrawal (u : Z) (input : wallet_op_input)
| OpInitiateWithdrawal (u : Z) (input : crypto_withdrawal_input).

(** The result of one mutating request alone. *)
Definition run_op (o : op) (d : db) : response * db :=
  match o with
  | OpCreate u code addr => run (create u code addr) d
  | OpTransfer u input => run (transfer u input) d
  | OpDeposit u input => run (recordDeposit u input) d
  | OpWithdrawal u input => run (recordWithdrawal u input) d
  | OpInitiateWithdrawal u input => run (initiateWithdrawal u input) d
  end.

Definition exec_op (o : op) (d : db) : db := snd (run_op o d).

Definition exec_ops (os : list op) (d : db) : db :=
  fold_left (fun d o => exec_op o d) os d.

(** The amount string a request carries is a numeral >= 0 (creation
    carries none). *)
Definition op_amount_nonneg (o : op) : bool :=
  match o with
  | OpCreate _ _ _ => true
  | OpTransfer _ input => 0 <=? num_digits (in_amount input)
  | OpDeposit _ input | OpWithdrawal _ input => 0 <=? num_digits (op_amount input)
  | OpInitiateWithdrawal _ input => 0 <=? num_digits (cw_amount input)
  end.

(** The error a request answers from its [catch]. *)
Definition catch_error (o : op) : string :=
  match o with
  | OpCreate _ _ _ => "Failed to create wallet"
  | OpTransfer _ _ => "Transfer failed"
  | OpDeposit _ _ => "Failed to record deposit"
  | OpWithdrawal _ _ => "Failed to record withdrawal"
  | OpInitiateWithdrawal _ _ => "Failed to initiate withdrawal"
  end.

(** The empty ledger. *)
Definition empty_db : db := mkDb [] [] 1.

(** Requests run one after the other, with their answers. *)
Fixpoint run_ops (os : list op) (d : db) : list response * db :=
  match os with
  | [] => ([], d)
  | o :: os' =>
    let (r, d1) := run_op o d in
    let (rs, d2) := run_ops os' d1 in
    (r :: rs, d2)
  end.

(** ** Further procedures of the routers

    A query answers [Some] of its payload, or [None] for its error
    answers. *)

(** [walletsRouter.getById]: [None] is "Wallet not found" (or the catch). *)
Definition wallets_getById (ctx_user : Z) (walletId : Z) : prog (option wallet) :=
  try_catch (
    wallet <- getWalletById walletId ;;
    match wallet with
    | None => return_ None
    | Some w => if negb (Z.eqb (userId w) ctx_user) then return_ None else return_ (Some w)
    end)
  None.

(** [walletsRouter.getBalance]: the balance and the currency. *)
Definition wallets_getBalance (ctx_user : Z) (walletId : Z) : prog (option (Z * string)) :=
  try_catch (
    wallet <- getWalletById walletId ;;
    match wallet with
    | None => return_ None
    | Some w =>
      if negb (Z.eqb (userId w) ctx_user) then return_ None
      else return_ (Some (balance w, currencyCode w))
    end)
  None.

(** The mock deposit addresses of [cryptoRouter.generateAddress]. *)
Definition btc_mock_address : string := "1A1z7agoat4FqCnf4Xy2MQUqLCWCuqq2em".
Definition eth_mock_address : string := "0x742d35Cc6634C0532925a3b844Bc9e7595f42bE".

Definition mock_address (c : cryptocurrency) : string :=
  match c with BTC => btc_mock_address | ETH => eth_mock_address end.

Definition has_code (c : cryptocurrency) (w : wallet) : bool :=
  String.eqb (currencyCode w) (crypto_code c).

(** [cryptoRouter.generateAddress]: the answered address.  An existing
    wallet answers [wallet?.address || "1A1z..."]; otherwise a wallet is
    created with the mock address. *)
Definition generateAddress (ctx_user : Z) (c : cryptocurrency) : prog (option string) :=
  try_catch (
    existingWallets <- getUserWallets ctx_user ;;
    if existsb (has_code c) existingWallets then
      match find (has_code c) existingWallets with
      | Some w => return_ (Some (or_default (address w) btc_mock_address))
      | None => return_ (Some btc_mock_address)
      end
    else
      let mockAddress := mock_address c in
      createWallet ctx_user (crypto_code c) (Some mockAddress) ;;;
      return_ (Some mockAddress))
  None.

(** [cryptoRouter.getDepositAddress]: [None] is "Wallet not found" (no
    wallet, or an absent or empty address); the QR-code URL built from the
    address is not modelled. *)
Definition getDepositAddress (ctx_user : Z) (c : cryptocurrency) : prog (option string) :=
  try_catch (
    ws <- getUserWallets ctx_user ;;
    match find (has_code c) ws with
    | None => return_ None
    | Some w =>
      match address w with
      | None => return_ None
      | Some a => if String.eqb a "" then return_ None else return_ (Some a)
      end
    end)
  None.

(** [cryptoRouter.getBalance]: balance and address of the caller's first
    wallet in the currency. *)
Definition crypto_getBalance (ctx_user : Z) (c : cryptocurrency)
  : prog (option (Z * option string)) :=
  try_catch (
    ws <- getUserWallets ctx_user ;;
    match find (has_code c) ws with
    | None => return_ None
    | Some w => return_ (Some (balance w, address w))
    end)
  None.

(** ** Transaction queries

    The [transactions] table is append-only and its ids are AUTO_INCREMENT
    from 1 (a rejected insert takes none), so the row at position [i] (from
    0) has id [i + 1].  [createdAt] is not modelled: the order in which
    MySQL returns the matching rows for [orderBy(desc(createdAt))] (rows of
    one second tie, in no fixed order) is the parameter [ord], a permutation
    of its argument.  [limit] and [offset] are naturals. *)

Definition numbered (ts : list transaction) : list (Z * transaction) :=
  combine (map Z.of_nat (seq 1 (List.length ts))) ts.

(** [or(eq(fromUserId, u), eq(toUserId, u))]; a NULL column matches nothing. *)
Definition involves (u : Z) (t : transaction) : bool :=
  match fromUserId t with Some x => Z.eqb x u | None => false end
  || match toUserId t with Some x => Z.eqb x u | None => false end.

Definition user_transactions (ord : list (Z * transaction) -> list (Z * transaction))
    (d : db) (u : Z) (limit offset : nat) : list (Z * transaction) :=
  firstn limit (skipn offset (ord (filter (fun p => involves u (snd p)) (numbered (transactions d))))).

(** [getUserTransactions]. *)
Definition getUserTransactions (ord : list (Z * transaction) -> list (Z * transaction))
    (u : Z) (limit offset : nat) : prog (option (list (Z * transaction))) :=
  db_call Some (fun d => user_transactions ord d u limit offset).

Definition transactionType_eqb (a b : transactionType) : bool :=
  match a, b with
  | transfer_t, transfer_t | deposit_t, deposit_t
  | withdrawal_t, withdrawal_t | exchange_t, exchange_t => true
  | _, _ => false
  end.

Definition txStatus_eqb (a b : txStatus) : bool :=
  match a, b with
  | pending, pending | completed, completed | failed, failed | cancelled, cancelled => true
  | _, _ => false
  end.

(** [transactionsRouter.list]: the page, then the optional type and status
    filters; answers the filtered list and its length. *)
Definition transactions_list (ord : list (Z * transaction) -> list (Z * transaction))
    (ctx_user : Z) (limit offset : nat)
    (type : option transactionType) (st : option txStatus)
  : prog (option (list (Z * transaction) * nat)) :=
  try_catch (
    transactions <- getUserTransactions ord ctx_user limit offset ;;
    let filtered := match type with
                    | Some ty => filter (fun p => transactionType_eqb (txType (snd p)) ty) transactions
                    | None => transactions
                    end in
    let filtered := match st with
                    | Some s => filter (fun p => txStatus_eqb (status (snd p)) s) filtered
                    | None => filtered
                    end in
    return_ (Some (filtered, List.length filtered)))
  None.

(** Requests that change the database, with [cryptoRouter.generateAddress]
    beside the ledger requests. *)
Inductive any_op :=
| Ledger (o : op)
| OpGenerateAddress (u : Z) (c : cryptocurrency).

Definition exec_any (o : any_op) (d : db) : db :=
  match o with
  | Ledger o => exec_op o d
  | OpGenerateAddress u c => snd (run (generateAddress u c) d)
  end.

Definition exec_anys (os : list any_op) (d : db) : db :=
  fold_left (fun d o => exec_any o d) os d.

(** Wallet ids are pairwise distinct and below the AUTO_INCREMENT counter. *)
Definition ids_ok (d : db) : Prop :=
  NoDup (map w_id (wallets d)) /\ Forall (fun w => w_id w < next_wallet_id d) (wallets d).

(** No two wallets share an owner and a currency code. *)
Definition owner_currency_unique (d : db) : Prop :=
  NoDup (map (fun w => (userId w, currencyCode w)) (wallets d)).

(** Every column of the new wallet row fits. *)
Definition wallet_insert_ok (d : db) (u : Z) (code : string) (addr : option string) : bool :=
  fits_int u && fits_int (next_wallet_id d) && fits_varchar 10 code
  && opt_ok (fits_varchar 255) addr.

(** The sign of a number: [nonneg_double] holds of [+0], [-0], positive
    numbers, [+Infinity] and NaN; [nonpos_double] of [+0], [-0], negative
    numbers and [-Infinity]. *)
Definition nonneg_double (x : double) : bool :=
  match x with
  | S754_finite s _ _ | S754_infinity s => negb s
  | S754_zero _ | S754_nan => true
  end.

Definition nonpos_double (x : double) : bool :=
  match x with
  | S754_finite s _ _ | S754_infinity s => s
  | S754_zero _ => true
  | S754_nan => false
  end.

(** A double in the form [round_ratio] produces: a mantissa of 53 bits, or
    a smaller one at the least exponent -1074. *)
Definition canon (x : double) : Prop :=
  match x with
  | S754_finite _ m e => -1074 <= e /\ Zpos m < 2 ^ 53 /\ (2 ^ 52 <= Zpos m \/ e = -1074)
  | _ => True
  end.

(** ** Sanity checks of the number layer *)

(** [parseFloat("0.1")] is 0x1.999999999999ap-4. *)
Example parseFloat_tenth : parseFloat (mkNumeral 1 1) = S754_finite false 7205759403792794 (-56).
Proof. vm_compute. reflexivity. Qed.

(** [(0.1 + 0.2).toString()] is "0.30000000000000004". *)
Example toString_tenth_plus_fifth :
  js_number_value (dadd (parseFloat (mkNumeral 1 1)) (parseFloat (mkNumeral 2 1)))
  = Some (30000000000000004, -17).
Proof. vm_compute. reflexivity. Qed.

(** [1000000000 - 0.00000001] is 1000000000 again. *)
Example sub_lost : number_to_decimal (dsub (parseFloat (units 100000000000000000))
                                           (parseFloat (units 1)))
                   = Some 100000000000000000.
Proof. vm_compute. reflexivity. Qed.

(** [(5e-324).toString()] is "5e-324"; [1e21] prints as "1e+21". *)
Example toString_extremes :
  js_number_value (S754_finite false 1 (-1074)) = Some (5, -324)
  /\ js_number_value (parseFloat (mkNumeral (10 ^ 21) 0)) = Some (1, 21).
Proof. vm_compute. split; reflexivity. Qed.

(** * Properties *)

(** The number layer is evaluated on concrete inputs only; symbolic
    reasoning keeps it folded. *)
Arguments parseFloat : simpl never.
Arguments units : simpl never.
Arguments number_to_decimal : simpl never.
Arguments numeral_to_decimal : simpl never.
Arguments store_transaction : simpl never.
Arguments dltb : simpl never.
Arguments deqb : simpl never.
Arguments dadd : simpl never.
Arguments dsub : simpl never.
Arguments dmul : simpl never.
Arguments ddiv : simpl never.

(** ** General lemmas *)

Lemma run_bind {A B} (p : prog A) (f : A -> prog B) (d : db) :
  run (bind p f) d = let '(a, d') := run p d in run (f a) d'.
Proof.
  revert d. induction p as [a | upd k IH]; intro d; simpl.
  - reflexivity.
  - destruct (upd d); apply IH.
Qed.

Ltac split_matches :=
  repeat (simpl; match goal with
                 | |- context [match ?x with _ => _ end] => destruct x eqn:?
                 end).

(** [transfer], case by case: the three validation answers leave the
    database as it was; past them, a rejected insert or balance write
    answers "Transfer failed" after the writes already done. *)
Lemma transfer_unfold d u input :
  run (transfer u input) d =
  match find_wallet (wallets d) (in_fromWalletId input) with
  | None => (Failure "Invalid source wallet", d)
  | Some fw =>
    if negb (Z.eqb (userId fw) u) then (Failure "Invalid source wallet", d) else
    match find_wallet (wallets d) (in_toWalletId input) with
    | None => (Failure "Invalid destination wallet", d)
    | Some tw =>
      let bal := parseFloat (units (balance fw)) in
      let amt := parseFloat (in_amount input) in
      if dltb bal amt then (Failure "Insufficient balance", d) else
      match store_transaction (transfer_data u input) with
      | None => (Failure "Transfer failed", d)
      | Some t =>
        let d1 := db_insert_transaction d t in
        match number_to_decimal (dsub bal amt) with
        | None => (Failure "Transfer failed", d1)
        | Some nf =>
          let d2 := db_update_balance d1 (in_fromWalletId input) nf in
          match number_to_decimal (dadd (parseFloat (units (balance tw))) amt) with
          | None => (Failure "Transfer failed", d2)
          | Some nt => (Success "Transfer completed successfully",
                        db_update_balance d2 (in_toWalletId input) nt)
          end
        end
      end
    end
  end.
Proof.
  unfold transfer, try_catch, ebind, getWalletById, createTransaction,
    updateWalletBalance, db_call, return_. simpl.
  destruct (find_wallet (wallets d) (in_fromWalletId input)) as [fw |]; simpl; [| reflexivity].
  destruct (negb (Z.eqb (userId fw) u)); simpl; [reflexivity |].
  destruct (find_wallet (wallets d) (in_toWalletId input)) as [tw |]; simpl; [| reflexivity].
  destruct (dltb _ _); simpl; [reflexivity |].
  destruct (store_transaction _); simpl; [| reflexivity].
  destruct (number_to_decimal (dsub _ _)); simpl; [| reflexivity].
  destruct (number_to_decimal (dadd _ _)); reflexivity.
Qed.

Lemma recordDeposit_unfold d u input :
  run (recordDeposit u input) d =
  match find_wallet (wallets d) (op_walletId input) with
  | None => (Failure "Invalid wallet", d)
  | Some w =>
    if negb (Z.eqb (userId w) u) then (Failure "Invalid wallet", d) else
    match store_transaction (deposit_data u input) with
    | None => (Failure "Failed to record deposit", d)
    | Some t =>
      let d1 := db_insert_transaction d t in
      match number_to_decimal (dadd (parseFloat (units (balance w))) (parseFloat (op_amount input))) with
      | None => (Failure "Failed to record deposit", d1)
      | Some nb => (Success "Deposit recorded successfully",
                    db_update_balance d1 (op_walletId input) nb)
      end
    end
  end.
Proof.
  unfold recordDeposit, try_catch, ebind, getWalletById, createTransaction,
    updateWalletBalance, db_call, return_. simpl.
  destruct (find_wallet (wallets d) (op_walletId input)) as [w |]; simpl; [| reflexivity].
  destruct (negb (Z.eqb (userId w) u)); simpl; [reflexivity |].
  destruct (store_transaction _); simpl; [| reflexivity].
  destruct (number_to_decimal _); reflexivity.
Qed.

Lemma recordWithdrawal_unfold d u input :
  run (recordWithdrawal u input) d =
  match find_wallet (wallets d) (op_walletId input) with
  | None => (Failure "Invalid wallet", d)
  | Some w =>
    if negb (Z.eqb (userId w) u) then (Failure "Invalid wallet", d) else
    let bal := parseFloat (units (balance w)) in
    let amt := parseFloat (op_amount input) in
    if dltb bal amt then (Failure "Insufficient balance", d) else
    match store_transaction (withdrawal_data u input) with
    | None => (Failure "Failed to record withdrawal", d)
    | Some t =>
      let d1 := db_insert_transaction d t in
      match number_to_decimal (dsub bal amt) with
      | None => (Failure "Failed to record withdrawal", d1)
      | Some nb => (Success "Withdrawal recorded successfully",
                    db_update_balance d1 (op_walletId input) nb)
      end
    end
  end.
Proof.
  unfold recordWithdrawal, try_catch, ebind, getWalletById, createTransaction,
    updateWalletBalance, db_call, return_. simpl.
  destruct (find_wallet (wallets d) (op_walletId input)) as [w |]; simpl; [| reflexivity].
  destruct (negb (Z.eqb (userId w) u)); simpl; [reflexivity |].
  destruct (dltb _ _); simpl; [reflexivity |].
  destruct (store_transaction _); simpl; [| reflexivity].
  destruct (number_to_decimal _); reflexivity.
Qed.

Lemma initiateWithdrawal_unfold d u input :
  run (initiateWithdrawal u input) d =
  match crypto_wallet_of d u (cw_cryptocurrency input) with
  | None => (Failure "Wallet not found", d)
  | Some w =>
    if dltb (parseFloat (units (balance w))) (parseFloat (cw_amount input))
    then (Failure "Insufficient balance", d) else
    match store_transaction (crypto_withdrawal_data u w input) with
    | None => (Failure "Failed to initiate withdrawal", d)
    | Some t => (Success "Withdrawal initiated successfully", db_insert_transaction d t)
    end
  end.
Proof.
  unfold initiateWithdrawal, crypto_wallet_of, try_catch, ebind, getUserWallets,
    createTransaction, db_call, return_. simpl.
  destruct (find _ _) as [w |]; simpl; [| reflexivity].
  destruct (dltb _ _); simpl; [reflexivity |].
  destruct (store_transaction _); reflexivity.
Qed.

Lemma create_unfold d u code addr :
  run (create u code addr) d =
  if negb (valid_currency_code code) then (Failure "BAD_REQUEST", d) else
  if existsb (fun w => String.eqb (currencyCode w) code) (user_wallets (wallets d) u)
  then (Failure ("Wallet for " ++ code ++ " already exists"), d) else
  if wallet_insert_ok d u code addr
  then (Success (code ++ " wallet created successfully"), db_insert_wallet d u code addr)
  else (Failure "Failed to create wallet", d).
Proof.
  unfold create, try_catch, ebind, getUserWallets, createWallet, db_call, return_,
    wallet_insert_ok.
  destruct (negb (valid_currency_code code)); [reflexivity |]. simpl.
  destruct (existsb _ _); simpl; [reflexivity |].
  destruct (_ && _); reflexivity.
Qed.

(** ** Lemmas on the tables *)

Lemma upd_wallet_id walletId nb w : w_id (upd_wallet walletId nb w) = w_id w.
Proof. unfold upd_wallet. destruct (Z.eqb (w_id w) walletId); reflexivity. Qed.

Lemma find_wallet_update ws walletId nb walletId' :
  find_wallet (map (upd_wallet walletId nb) ws) walletId'
  = option_map (upd_wallet walletId nb) (find_wallet ws walletId').
Proof.
  unfold find_wallet. induction ws as [| w ws IH]; simpl; [reflexivity |].
  rewrite upd_wallet_id. destruct (Z.eqb (w_id w) walletId'); [reflexivity | apply IH].
Qed.

Lemma find_wallet_id ws walletId w :
  find_wallet ws walletId = Some w -> w_id w = walletId.
Proof. unfold find_wallet. intro H. apply find_some in H. apply Z.eqb_eq, H. Qed.

Lemma find_wallet_in ws walletId w :
  find_wallet ws walletId = Some w -> In w ws.
Proof. unfold find_wallet. intro H. apply find_some in H. apply H. Qed.

Lemma balance_of_update d walletId nb walletId' :
  balance_of (db_update_balance d walletId nb) walletId'
  = if Z.eqb walletId' walletId then option_map (fun _ => nb) (balance_of d walletId')
    else balance_of d walletId'.
Proof.
  unfold balance_of, db_update_balance. simpl. rewrite find_wallet_update.
  destruct (find_wallet (wallets d) walletId') as [w |] eqn:E; simpl; [| now destruct (Z.eqb _ _)].
  apply find_wallet_id in E. unfold upd_wallet. rewrite E.
  destruct (Z.eqb walletId' walletId); reflexivity.
Qed.

Lemma balance_of_insert_transaction d t walletId :
  balance_of (db_insert_transaction d t) walletId = balance_of d walletId.
Proof. reflexivity. Qed.

Lemma balance_of_find d walletId w :
  find_wallet (wallets d) walletId = Some w -> balance_of d walletId = Some (balance w).
Proof. unfold balance_of. intros ->. reflexivity. Qed.

(** A [transfer] that passes its checks and whose three writes are
    accepted. *)
Lemma transfer_success d u input fw tw t nf nt :
  find_wallet (wallets d) (in_fromWalletId input) = Some fw ->
  userId fw = u ->
  find_wallet (wallets d) (in_toWalletId input) = Some tw ->
  dltb (parseFloat (units (balance fw))) (parseFloat (in_amount input)) = false ->
  store_transaction (transfer_data u input) = Some t ->
  number_to_decimal (dsub (parseFloat (units (balance fw))) (parseFloat (in_amount input))) = Some nf ->
  number_to_decimal (dadd (parseFloat (units (balance tw))) (parseFloat (in_amount input))) = Some nt ->
  run (transfer u input) d =
  (Success "Transfer completed successfully",
   db_update_balance (db_update_balance (db_insert_transaction d t) (in_fromWalletId input) nf)
     (in_toWalletId input) nt).
Proof.
  intros Hf Hu Ht Hb Hs Hnf Hnt. rewrite transfer_unfold, Hf, Ht. subst u.
  rewrite Z.eqb_refl. simpl. rewrite Hb, Hs, Hnf, Hnt. reflexivity.
Qed.

(** * The claims *)

(** ** C1: a transfer failing a validation step changes nothing *)

(** C1. If the source wallet is missing or not owned by the caller, or
    the destination wallet is missing, or the source balance is below the
    amount (compared as JavaScript numbers, [parseFloat] of both strings),
    [transfer] answers with an error and the database (wallets and
    transaction records) after the call is the one before it. *)
Theorem transfer_validation_failure_atomic d u input :
  (find_wallet (wallets d) (in_fromWalletId input) = None
   \/ (exists fw, find_wallet (wallets d) (in_fromWalletId input) = Some fw /\ userId fw <> u)
   \/ find_wallet (wallets d) (in_toWalletId input) = None
   \/ (exists fw, find_wallet (wallets d) (in_fromWalletId input) = Some fw
                  /\ dltb (parseFloat (units (balance fw))) (parseFloat (in_amount input)) = true)) ->
  exists e, run (transfer u input) d = (Failure e, d).
Proof.
  intro H. rewrite transfer_unfold.
  destruct (find_wallet (wallets d) (in_fromWalletId input)) as [fw |] eqn:Ef;
    [| eexists; reflexivity].
  destruct (Z.eqb (userId fw) u) eqn:Eu; simpl; [| eexists; reflexivity].
  apply Z.eqb_eq in Eu.
  destruct (find_wallet (wallets d) (in_toWalletId input)) as [tw |] eqn:Et;
    [| eexists; reflexivity].
  destruct (dltb _ _) eqn:Eb; [eexists; reflexivity |].
  exfalso. destruct H as [H | [[fw' [H1 H2]] | [H | [fw' [H1 H2]]]]];
    try discriminate; injection H1 as <-; [contradiction | congruence].
Qed.

(** User 1 asks to move 500 units out of wallet 1, which holds 100. *)
Lemma transfer_validation_failure_atomic_witness :
  exists e, run (transfer 1 (mkTransferInput 2 1 2 (units 500) None)) sample_db = (Failure e, sample_db).
Proof.
  apply transfer_validation_failure_atomic. right. right. right.
  exists (mkWallet 1 1 "USD" 100 None true). split; [reflexivity | vm_compute; reflexivity].
Defined.

(** ** Signs of numbers *)

Lemma round_ratio_shape neg n d :
  round_ratio neg n d = S754_zero neg
  \/ round_ratio neg n d = S754_infinity neg
  \/ exists m e, round_ratio neg n d = S754_finite neg m e.
Proof.
  unfold round_ratio.
  destruct (n <=? 0); [left; reflexivity |].
  match goal with |- context [if ?q =? 0 then _ else _] => destruct (q =? 0) end;
    [left; reflexivity |].
  match goal with |- context [if ?q =? 2 ^ 53 then _ else _] => destruct (q =? 2 ^ 53) end.
  - destruct (_ <=? 971); [right; right; eexists; eexists; reflexivity | right; left; reflexivity].
  - destruct (_ <=? 971); [right; right; eexists; eexists; reflexivity | right; left; reflexivity].
Qed.

Lemma parseFloat_nonneg a : 0 <= num_digits a -> nonneg_double (parseFloat a) = true.
Proof.
  intro H. unfold parseFloat, ratio_to_double.
  replace (num_digits a <? 0) with false by (symmetry; apply Z.ltb_ge; lia).
  destruct (round_ratio_shape false (num_digits a) (10 ^ Z.of_nat (num_scale a)))
    as [-> | [-> | (m & e & ->)]]; reflexivity.
Qed.

Lemma parseFloat_nonpos a : num_digits a <= 0 -> nonpos_double (parseFloat a) = true.
Proof.
  intro H. unfold parseFloat, ratio_to_double, round_ratio.
  destruct (num_digits a <? 0) eqn:E.
  - fold (round_ratio true (- num_digits a) (10 ^ Z.of_nat (num_scale a))).
    destruct (round_ratio_shape true (- num_digits a) (10 ^ Z.of_nat (num_scale a)))
      as [-> | [-> | (m & e & ->)]]; reflexivity.
  - apply Z.ltb_ge in E. replace (num_digits a <=? 0) with true by (symmetry; apply Z.leb_le; lia).
    reflexivity.
Qed.

(** A number >= 0 is never below a number <= 0. *)
Lemma dltb_nonneg_nonpos x y :
  nonneg_double x = true -> nonpos_double y = true -> dltb x y = false.
Proof.
  unfold dltb, SFltb, SFcompare.
  destruct x as [[] | [] | | [] mx ex]; destruct y as [[] | [] | | [] my ey];
    simpl; intros H1 H2; try discriminate; reflexivity.
Qed.

(** ** C2: the sign of the amount *)

(** C2 (counterexample). A transfer of -0.00000005 (-5 units) from wallet 1
    to wallet 2 by user 1 is not rejected: it succeeds, a Transaction record
    with amount -5 is created and both balances change (wallet 1 from 100 to
    105, wallet 2 from 5 to 0). *)
Lemma transfer_negative_amount_accepted_cex :
  run (transfer 1 (mkTransferInput 2 1 2 (units (-5)) None)) sample_db =
  (Success "Transfer completed successfully",
   mkDb [mkWallet 1 1 "USD" 105 None true;
         mkWallet 2 2 "USD" 0 None true;
         mkWallet 3 3 "USD" 0 None false]
        [mkTransaction (Some 1) (Some 2) 1 (Some 2) (-5) 0 transfer_t completed None None] 4).
Proof. vm_compute. reflexivity. Qed.

(** C2 (amended). [transfer] does not examine the sign of the amount: with
    a source wallet owned by the caller holding a balance >= 0, an existing
    destination and an amount <= 0, the balance check passes and the
    transfer goes on like any other: if the record does not fit its columns
    (an amount that rounds beyond [decimal(18,8)]) the insert throws and the
    answer is "Transfer failed" with nothing changed; otherwise the completed
    record is inserted, the answer is success or "Transfer failed" (a new
    balance that does not fit), and when both new balances
    [parseFloat(balance) -/+ parseFloat(amount)] fit, it is success with the
    source and the destination set to them. *)
Theorem transfer_nonpositive_amount_accepted d u input fw tw :
  num_digits (in_amount input) <= 0 ->
  find_wallet (wallets d) (in_fromWalletId input) = Some fw ->
  userId fw = u ->
  0 <= balance fw ->
  find_wallet (wallets d) (in_toWalletId input) = Some tw ->
  let r := run (transfer u input) d in
  match store_transaction (transfer_data u input) with
  | None => r = (Failure "Transfer failed", d)
  | Some t =>
    transactions (snd r) = (transactions d ++ [t])%list
    /\ (fst r = Success "Transfer completed successfully" \/ fst r = Failure "Transfer failed")
    /\ (forall nf nt,
        number_to_decimal (dsub (parseFloat (units (balance fw))) (parseFloat (in_amount input))) = Some nf ->
        number_to_decimal (dadd (parseFloat (units (balance tw))) (parseFloat (in_amount input))) = Some nt ->
        r = (Success "Transfer completed successfully",
             db_update_balance (db_update_balance (db_insert_transaction d t) (in_fromWalletId input) nf)
               (in_toWalletId input) nt))
  end.
Proof.
  intros Ha Hf Hu Hb Ht r. subst r.
  assert (Hlt : dltb (parseFloat (units (balance fw))) (parseFloat (in_amount input)) = false)
    by (apply dltb_nonneg_nonpos; [apply parseFloat_nonneg | apply parseFloat_nonpos]; simpl; lia).
  rewrite transfer_unfold, Hf, Ht. subst u. rewrite Z.eqb_refl. simpl. rewrite Hlt.
  destruct (store_transaction (transfer_data (userId fw) input)) as [t |]; [| reflexivity].
  split; [| split].
  - destruct (number_to_decimal (dsub _ _)); [destruct (number_to_decimal (dadd _ _)) |]; reflexivity.
  - destruct (number_to_decimal (dsub _ _)); [destruct (number_to_decimal (dadd _ _)) |];
      simpl; auto.
  - intros nf nt -> ->. reflexivity.
Qed.

Lemma transfer_nonpositive_amount_accepted_witness :
  let input := mkTransferInput 2 1 2 (units (-5)) None in
  let r := run (transfer 1 input) sample_db in
  match store_transaction (transfer_data 1 input) with
  | None => r = (Failure "Transfer failed", sample_db)
  | Some t =>
    transactions (snd r) = (transactions sample_db ++ [t])%list
    /\ (fst r = Success "Transfer completed successfully" \/ fst r = Failure "Transfer failed")
    /\ (forall nf nt,
        number_to_decimal (dsub (parseFloat (units 100)) (parseFloat (in_amount input))) = Some nf ->
        number_to_decimal (dadd (parseFloat (units 5)) (parseFloat (in_amount input))) = Some nt ->
        r = (Success "Transfer completed successfully",
             db_update_balance (db_update_balance (db_insert_transaction sample_db t) 1 nf) 2 nt))
  end.
Proof.
  exact (transfer_nonpositive_amount_accepted sample_db 1 (mkTransferInput 2 1 2 (units (-5)) None)
           (mkWallet 1 1 "USD" 100 None true) (mkWallet 2 2 "USD" 5 None true)
           ltac:(simpl; lia) eq_refl eq_refl ltac:(simpl; lia) eq_refl).
Defined.

(** ** C4: conservation of a transfer *)

(** C4 (failing input). User 1 transfers 0.0000003 (30 units) from wallet 1
    (balance 100 units) to the same wallet 1: the transfer succeeds and the
    wallet ends at 130, so balance(A) + balance(B) goes from 200 to 260.
    The destination balance was read before the source was debited, and the
    second write overwrites the first. *)
Theorem self_transfer_not_conserved :
  let r := run (transfer 1 (mkTransferInput 1 1 1 (units 30) None)) sample_db in
  fst r = Success "Transfer completed successfully"
  /\ balance_of sample_db 1 = Some 100
  /\ balance_of (snd r) 1 = Some 130.
Proof. vm_compute. repeat split. Qed.

(** ** C5: which transfers succeed *)

(** C5 (counterexample). User 1 transfers 10 units from wallet 1 to wallet
    3, whose isActive flag is false: the transfer succeeds. *)
Lemma transfer_to_inactive_wallet_cex :
  find_wallet (wallets sample_db) 3 = Some (mkWallet 3 3 "USD" 0 None false)
  /\ fst (run (transfer 1 (mkTransferInput 3 1 3 (units 10) None)) sample_db)
     = Success "Transfer completed successfully".
Proof. split; vm_compute; reflexivity. Qed.

(** C5 (amended). A transfer succeeds exactly when the source wallet exists
    and belongs to the caller, the destination wallet exists,
    [parseFloat(balance) < parseFloat(amount)] is false, the Transaction
    record fits its columns, and both new balances, as the strings of
    [parseFloat(from.balance) - parseFloat(amount)] and
    [parseFloat(to.balance) + parseFloat(amount)], fit [decimal(18,8)]; no
    isActive flag and no comparison of the two wallet ids enters the
    decision. *)
Theorem transfer_success_iff d u input :
  (exists msg, fst (run (transfer u input) d) = Success msg) <->
  (exists fw tw t nf nt,
     find_wallet (wallets d) (in_fromWalletId input) = Some fw
     /\ userId fw = u
     /\ find_wallet (wallets d) (in_toWalletId input) = Some tw
     /\ dltb (parseFloat (units (balance fw))) (parseFloat (in_amount input)) = false
     /\ store_transaction (transfer_data u input) = Some t
     /\ number_to_decimal (dsub (parseFloat (units (balance fw))) (parseFloat (in_amount input))) = Some nf
     /\ number_to_decimal (dadd (parseFloat (units (balance tw))) (parseFloat (in_amount input))) = Some nt).
Proof.
  split.
  - intros [msg H]. revert H. rewrite transfer_unfold.
    destruct (find_wallet (wallets d) (in_fromWalletId input)) as [fw |] eqn:Ef; [| discriminate].
    destruct (Z.eqb (userId fw) u) eqn:Eu; simpl; [| discriminate].
    destruct (find_wallet (wallets d) (in_toWalletId input)) as [tw |] eqn:Et; [| discriminate].
    destruct (dltb _ _) eqn:Eb; [discriminate |].
    destruct (store_transaction _) as [t |] eqn:Es; [| discriminate].
    destruct (number_to_decimal (dsub _ _)) as [nf |] eqn:Enf; [| discriminate].
    destruct (number_to_decimal (dadd _ _)) as [nt |] eqn:Ent; [| discriminate].
    intros _. apply Z.eqb_eq in Eu. exists fw, tw, t, nf, nt. auto 10.
  - intros (fw & tw & t & nf & nt & Hf & Hu & Ht & Hb & Hs & Hnf & Hnt).
    rewrite (transfer_success d u input fw tw t nf nt Hf Hu Ht Hb Hs Hnf Hnt).
    eexists. reflexivity.
Qed.

Lemma transfer_success_iff_witness :
  exists msg, fst (run (transfer 1 (mkTransferInput 3 1 3 (units 10) None)) sample_db) = Success msg.
Proof.
  apply (proj2 (transfer_success_iff sample_db 1 (mkTransferInput 3 1 3 (units 10) None))).
  exists (mkWallet 1 1 "USD" 100 None true), (mkWallet 3 3 "USD" 0 None false),
    (mkTransaction (Some 1) (Some 3) 1 (Some 3) 10 0 transfer_t completed None None), 90, 10.
  repeat split; vm_compute; reflexivity.
Defined.

(** ** Rows and strings *)

Lemma store_transaction_inv x t :
  store_transaction x = Some t ->
  exists a f, numeral_to_decimal (ins_amount x) = Some a
              /\ numeral_to_decimal (ins_fee x) = Some f
              /\ t = mkTransaction (ins_fromUserId x) (ins_toUserId x) (ins_fromWalletId x)
                       (ins_toWalletId x) a f (ins_type x) (ins_status x)
                       (ins_blockchainTxHash x) (ins_description x).
Proof.
  unfold store_transaction.
  destruct (numeral_to_decimal (ins_amount x)) as [a |]; [| discriminate].
  destruct (numeral_to_decimal (ins_fee x)) as [f |]; [| discriminate].
  destruct (_ && _); [| discriminate]. intro H. injection H as <-. eauto.
Qed.

Lemma string_length_append s1 s2 :
  String.length (s1 ++ s2) = (String.length s1 + String.length s2)%nat.
Proof. induction s1 as [| c s1 IH]; simpl; [reflexivity | rewrite IH; reflexivity]. Qed.

Lemma substring_length_le m s : (String.length (substring 0 m s) <= m)%nat.
Proof.
  revert s. induction m as [| m IH]; intro s; destruct s as [| c s]; simpl; try lia.
  specialize (IH s). lia.
Qed.

(** The record of [initiateWithdrawal], when its values fit. *)
Lemma store_crypto_withdrawal u w input a :
  numeral_to_decimal (cw_amount input) = Some a ->
  fits_int u = true -> fits_int (w_id w) = true ->
  store_transaction (crypto_withdrawal_data u w input)
  = Some (mkTransaction (Some u) None (w_id w) (Some (w_id w)) a 50000 withdrawal_t pending None
            (Some ("Withdrawal to " ++ substring 0 10 (cw_destinationAddress input) ++ "..."))).
Proof.
  intros Ha Hu Hw.
  assert (Hd : fits_text ("Withdrawal to " ++ substring 0 10 (cw_destinationAddress input) ++ "...")
               = true).
  { unfold fits_text. apply Z.leb_le. rewrite string_length_append, string_length_append.
    pose proof (substring_length_le 10 (cw_destinationAddress input)). simpl. lia. }
  unfold store_transaction, crypto_withdrawal_data.
  cbn [ins_amount ins_fee ins_fromUserId ins_toUserId ins_fromWalletId ins_toWalletId
       ins_blockchainTxHash ins_description ins_type ins_status opt_ok].
  rewrite Ha. change (numeral_to_decimal crypto_withdrawal_fee) with (Some 50000).
  rewrite Hu, Hw, Hd. reflexivity.
Qed.

(** ** C6: crypto withdrawal initiation *)

(** C6 (counterexample). User 1 initiates a BTC withdrawal of 40 units from
    wallet 1 holding 100 units: the request succeeds and a pending
    withdrawal record is inserted, but the balance is still 100. *)
Lemma initiate_withdrawal_no_debit_cex :
  let input := mkCryptoWithdrawalInput BTC (units 40) "bc1qxy2kgdygjrsqtzq2n0yrf2493p83kkfjhx0wlh" in
  let r := run (initiateWithdrawal 1 input) crypto_db in
  fst r = Success "Withdrawal initiated successfully"
  /\ map status (transactions (snd r)) = [pending]
  /\ balance_of (snd r) 1 = Some 100.
Proof. vm_compute. repeat split. Qed.

(** C6 (amended). When the caller has a wallet in the requested
    cryptocurrency, [parseFloat(balance) < parseFloat(amount)] is false, and
    the record's values fit their columns (the amount rounds into
    [decimal(18,8)], the user and wallet ids are [int]s),
    [initiateWithdrawal] succeeds and only inserts a Transaction of type
    withdrawal with status pending (fee 0.0005 = 50000 units) for that
    wallet; it does not debit the balance, and no wallet changes. *)
Theorem initiate_withdrawal_pending_no_debit d u input w a :
  crypto_wallet_of d u (cw_cryptocurrency input) = Some w ->
  dltb (parseFloat (units (balance w))) (parseFloat (cw_amount input)) = false ->
  numeral_to_decimal (cw_amount input) = Some a ->
  fits_int u = true -> fits_int (w_id w) = true ->
  let t := mkTransaction (Some u) None (w_id w) (Some (w_id w)) a 50000 withdrawal_t pending None
             (Some ("Withdrawal to " ++ substring 0 10 (cw_destinationAddress input) ++ "...")) in
  run (initiateWithdrawal u input) d =
  (Success "Withdrawal initiated successfully", db_insert_transaction d t)
  /\ wallets (db_insert_transaction d t) = wallets d.
Proof.
  intros Hw Hb Ha Hu Hwi t. split; [| reflexivity].
  rewrite initiateWithdrawal_unfold, Hw, Hb.
  rewrite (store_crypto_withdrawal u w input a Ha Hu Hwi). reflexivity.
Qed.

Lemma initiate_withdrawal_pending_no_debit_witness :
  let input := mkCryptoWithdrawalInput BTC (units 40) "bc1qxy2kgdygjrsqtzq2n0yrf2493p83kkfjhx0wlh" in
  let w := mkWallet 1 1 "BTC" 100 (Some btc_mock_address) true in
  let t := mkTransaction (Some 1) None (w_id w) (Some (w_id w)) 40 50000 withdrawal_t pending None
             (Some ("Withdrawal to " ++ substring 0 10 (cw_destinationAddress input) ++ "...")) in
  run (initiateWithdrawal 1 input) crypto_db =
  (Success "Withdrawal initiated successfully", db_insert_transaction crypto_db t)
  /\ wallets (db_insert_transaction crypto_db t) = wallets crypto_db.
Proof.
  exact (initiate_withdrawal_pending_no_debit crypto_db 1
           (mkCryptoWithdrawalInput BTC (units 40) "bc1qxy2kgdygjrsqtzq2n0yrf2493p83kkfjhx0wlh")
           (mkWallet 1 1 "BTC" 100 (Some btc_mock_address) true) 40
           eq_refl ltac:(vm_compute; reflexivity) ltac:(vm_compute; reflexivity) eq_refl eq_refl).
Defined.

(** ** C7: distribution *)

(** C7 (counterexample).  User 1 creates USD, EUR and GBP wallets and
    records deposits of 0.1, 0.2 and -0.3: the balances (10000000,
    20000000 and -30000000 units) add up to 0, but the sum of the numbers
    [parseFloat(balance)] is 0.1 + 0.2 - 0.3 = 5.55e-17, not 0, so
    [getDistribution] answers three entries, not the empty sequence. *)
Lemma distribution_rounding_cex :
  let d := exec_ops [OpCreate 1 "USD" None; OpCreate 1 "EUR" None; OpCreate 1 "GBP" None;
                     OpDeposit 1 (mkWalletOpInput 1 (mkNumeral 1 1) None None);
                     OpDeposit 1 (mkWalletOpInput 2 (mkNumeral 2 1) None None);
                     OpDeposit 1 (mkWalletOpInput 3 (mkNumeral (-3) 1) None None)] empty_db in
  map balance (user_wallets (wallets d) 1) = [10000000; 20000000; -30000000]
  /\ option_map (@List.length dist_entry) (fst (run (getDistribution 1) d)) = Some 3%nat.
Proof. vm_compute. split; reflexivity. Qed.

(** C7 (amended).  With [ws] the caller's wallets and [total] the
    JavaScript sum [0 + parseFloat(w1.balance) + ...] in order:
    [getDistribution] reads the database without changing it; if [total]
    equals 0 as a number it answers the empty sequence; otherwise one entry
    per wallet, in order, carrying the currency, the balance and the number
    [parseFloat(balance) / total * 100], each operation rounded to a double
    (so the entries can appear when the exact sum is 0, and a zero total
    never divides). *)
Theorem getDistribution_spec d u :
  let ws := user_wallets (wallets d) u in
  let total := total_value ws in
  let r := run (getDistribution u) d in
  snd r = d
  /\ (deqb total js_zero = true -> fst r = Some [])
  /\ (deqb total js_zero = false ->
      exists es, fst r = Some es
      /\ Forall2 (fun w e => d_currency e = currencyCode w
                             /\ d_balance e = balance w
                             /\ percentage e = dmul (ddiv (parseFloat (units (balance w))) total)
                                                    js_hundred)
                 ws es).
Proof.
  intros ws total r. subst r.
  unfold getDistribution, try_catch, ebind, getUserWallets, db_call, return_. simpl.
  fold ws. fold total.
  destruct (deqb total js_zero); simpl.
  - split; [reflexivity | split; [reflexivity | discriminate]].
  - split; [reflexivity | split; [discriminate | intros _]].
    eexists. split; [reflexivity |].
    clearbody total. induction ws as [| w ws IH]; simpl; constructor; auto.
Qed.

Lemma getDistribution_spec_witness :
  let d := mkDb [mkWallet 1 1 "USD" 30 None true; mkWallet 2 1 "EUR" 10 None true;
                 mkWallet 3 2 "USD" 50 None true] [] 4 in
  let ws := user_wallets (wallets d) 1 in
  let total := total_value ws in
  let r := run (getDistribution 1) d in
  snd r = d
  /\ (deqb total js_zero = true -> fst r = Some [])
  /\ (deqb total js_zero = false ->
      exists es, fst r = Some es
      /\ Forall2 (fun w e => d_currency e = currencyCode w
                             /\ d_balance e = balance w
                             /\ percentage e = dmul (ddiv (parseFloat (units (balance w))) total)
                                                    js_hundred)
                 ws es).
Proof.
  exact (getDistribution_spec
           (mkDb [mkWallet 1 1 "USD" 30 None true; mkWallet 2 1 "EUR" 10 None true;
                  mkWallet 3 2 "USD" 50 None true] [] 4) 1).
Defined.

(** ** C8: one wallet per user and currency *)

(** C8. After a call of [create] for user [u] and currency [code] that
    created the wallet or found one already there, a second call for the
    same user and currency fails with the already-exists error and leaves
    the database, so the existing wallet and its balance, unchanged. *)
Theorem create_twice_fails d u code addr addr' :
  fst (run (create u code addr) d) = Success (code ++ " wallet created successfully")
  \/ fst (run (create u code addr) d) = Failure ("Wallet for " ++ code ++ " already exists") ->
  let d1 := snd (run (create u code addr) d) in
  run (create u code addr') d1 =
  (Failure ("Wallet for " ++ code ++ " already exists"), d1).
Proof.
  intros H d1. subst d1. rewrite (create_unfold d u code addr) in H |- *.
  destruct (valid_currency_code code) eqn:Ev; cbn [negb fst snd] in H |- *.
  2: { exfalso. destruct H as [H | H]; [discriminate | injection H as H; discriminate H]. }
  destruct (existsb (fun w => String.eqb (currencyCode w) code)
              (user_wallets (wallets d) u)) eqn:E; cbn [negb fst snd] in H |- *.
  - rewrite create_unfold, Ev, E. reflexivity.
  - destruct (wallet_insert_ok d u code addr); cbn [negb fst snd] in H |- *.
    + rewrite create_unfold, Ev. cbn [negb].
      replace (existsb _ _) with true; [reflexivity |].
      unfold user_wallets, db_insert_wallet. cbn [wallets].
      rewrite filter_app, existsb_app. simpl.
      rewrite Z.eqb_refl. simpl. rewrite String.eqb_refl, orb_true_r. reflexivity.
    + exfalso. destruct H as [H | H]; [discriminate | injection H as H; discriminate H].
Qed.

Lemma create_twice_fails_witness :
  let d1 := snd (run (create 1 "USD" None) empty_db) in
  run (create 1 "USD" (Some btc_mock_address)) d1 =
  (Failure ("Wallet for " ++ "USD" ++ " already exists"), d1).
Proof.
  exact (create_twice_fails empty_db 1 "USD" None (Some btc_mock_address)
           (or_introl eq_refl)).
Defined.

(** ** C9: concurrent transfers from one wallet *)

(** C9 (counterexample). Wallet 1 holds 100 units; two transfers of 80
    units each are interleaved at their await points: both succeed and
    wallet 1 ends at 20 while 160 units were credited to wallets 2 and 3. *)
Lemma concurrent_transfers_both_succeed_cex :
  interleave race_schedule (race_first (units 80)) (race_second (units 80)) (race_db 100) =
  (Ret (Success "Transfer completed successfully"),
   Ret (Success "Transfer completed successfully"),
   mkDb [mkWallet 1 1 "USD" 20 None true;
         mkWallet 2 2 "USD" 80 None true;
         mkWallet 3 3 "USD" 80 None true]
        [mkTransaction (Some 1) (Some 2) 1 (Some 2) 80 0 transfer_t completed None None;
         mkTransaction (Some 1) (Some 3) 1 (Some 3) 80 0 transfer_t completed None None] 4).
Proof. vm_compute. reflexivity. Qed.

(** C9 (amended). Transfers are not serialized.  Wallet 1 holds [b] units;
    user 1 sends [a1] to the empty wallet 2 and [a2] to the empty wallet
    3, each amount passing the check against [b]
    ([parseFloat(balance) < parseFloat(amount)] false), with every write
    accepted.  Run one after the other, the first succeeds and stores [b1],
    and when [a2] does not pass the check against [b1] the second fails
    with "Insufficient balance" and the source keeps [b1].  Interleaved at
    their await points (both reads before the writes), both succeed, the
    source ends at [b2], the stored [parseFloat(b) - parseFloat(a2)] (the
    first debit is lost), and the destinations are credited. *)
Theorem concurrent_transfers_not_serialized b a1 a2 t1 t2 b1 b2 c1 c2 :
  dltb (parseFloat (units b)) (parseFloat a1) = false ->
  dltb (parseFloat (units b)) (parseFloat a2) = false ->
  store_transaction (transfer_data 1 (mkTransferInput 2 1 2 a1 None)) = Some t1 ->
  store_transaction (transfer_data 1 (mkTransferInput 3 1 3 a2 None)) = Some t2 ->
  number_to_decimal (dsub (parseFloat (units b)) (parseFloat a1)) = Some b1 ->
  number_to_decimal (dsub (parseFloat (units b)) (parseFloat a2)) = Some b2 ->
  number_to_decimal (dadd (parseFloat (units 0)) (parseFloat a1)) = Some c1 ->
  number_to_decimal (dadd (parseFloat (units 0)) (parseFloat a2)) = Some c2 ->
  dltb (parseFloat (units b1)) (parseFloat a2) = true ->
  (let r1 := run (race_first a1) (race_db b) in
   let r2 := run (race_second a2) (snd r1) in
   fst r1 = Success "Transfer completed successfully"
   /\ fst r2 = Failure "Insufficient balance"
   /\ balance_of (snd r2) 1 = Some b1)
  /\
  (exists d',
   interleave race_schedule (race_first a1) (race_second a2) (race_db b) =
   (Ret (Success "Transfer completed successfully"),
    Ret (Success "Transfer completed successfully"), d')
   /\ balance_of d' 1 = Some b2
   /\ balance_of d' 2 = Some c1
   /\ balance_of d' 3 = Some c2).
Proof.
  intros H1 H2 Hs1 Hs2 Hb1 Hb2 Hc1 Hc2 Hover.
  split.
  - unfold race_first, race_second. rewrite !transfer_unfold.
    simpl. rewrite H1, Hs1, Hb1, Hc1. simpl. rewrite Hover. simpl. repeat split.
  - unfold race_first, race_second, transfer, try_catch, ebind, getWalletById,
      createTransaction, updateWalletBalance, db_call, return_.
    repeat progress (simpl; rewrite ?H1, ?H2, ?Hs1, ?Hs2, ?Hb1, ?Hb2, ?Hc1, ?Hc2).
    eexists. split; [reflexivity |].
    unfold balance_of. simpl. repeat split.
Qed.

(** The example of the counterexample: 100 units, two transfers of 80. *)
Lemma concurrent_transfers_not_serialized_witness :
  (let r1 := run (race_first (units 80)) (race_db 100) in
   let r2 := run (race_second (units 80)) (snd r1) in
   fst r1 = Success "Transfer completed successfully"
   /\ fst r2 = Failure "Insufficient balance"
   /\ balance_of (snd r2) 1 = Some 20)
  /\
  (exists d',
   interleave race_schedule (race_first (units 80)) (race_second (units 80)) (race_db 100) =
   (Ret (Success "Transfer completed successfully"),
    Ret (Success "Transfer completed successfully"), d')
   /\ balance_of d' 1 = Some 20
   /\ balance_of d' 2 = Some 80
   /\ balance_of d' 3 = Some 80).
Proof.
  apply (concurrent_transfers_not_serialized 100 (units 80) (units 80)
           (mkTransaction (Some 1) (Some 2) 1 (Some 2) 80 0 transfer_t completed None None)
           (mkTransaction (Some 1) (Some 3) 1 (Some 3) 80 0 transfer_t completed None None)
           20 20 80 80); vm_compute; reflexivity.
Defined.

(** ** C10: the recipient user id is not checked *)




(** ** Rounding and signs of numbers *)

Ltac max_simpl :=
  repeat match goal with
         | |- context [Z.max ?a ?b] =>
           first [rewrite (Z.max_l a b) by lia | rewrite (Z.max_r a b) by lia]
         | H : context [Z.max ?a ?b] |- _ =>
           first [rewrite (Z.max_l a b) in H by lia | rewrite (Z.max_r a b) in H by lia]
         end.

Lemma pow2_add a b : 0 <= a -> 0 <= b -> 2 ^ (a + b) = 2 ^ a * 2 ^ b.
Proof. intros. apply Z.pow_add_r; lia. Qed.

Lemma pow2_pos a : 0 < 2 ^ a \/ a < 0.
Proof. destruct (Z_lt_le_dec a 0); [right; lia | left; apply Z.pow_pos_nonneg; lia]. Qed.

Lemma floor_log2_spec n d :
  0 < n -> 0 < d ->
  ge_pow2 n d (floor_log2 n d) = true /\ ge_pow2 n d (floor_log2 n d + 1) = false.
Proof.
  intros Hn Hd. unfold floor_log2.
  destruct (Z.log2_spec n Hn) as [Hn1 Hn2]. destruct (Z.log2_spec d Hd) as [Hd1 Hd2].
  pose proof (Z.log2_nonneg n). pose proof (Z.log2_nonneg d).
  set (ln := Z.log2 n) in *. set (ld := Z.log2 d) in *.
  rewrite <- Z.add_1_r in Hn2, Hd2.
  destruct (ge_pow2 n d (ln - ld)) eqn:E; split.
  - exact E.
  - unfold ge_pow2. apply Z.leb_gt.
    destruct (Z_le_gt_dec 0 (ln - ld + 1)).
    + max_simpl. rewrite Z.pow_0_r.
      assert (P : 2 ^ (ln + 1) = 2 ^ ld * 2 ^ (ln - ld + 1))
        by (rewrite <- pow2_add by lia; f_equal; lia).
      pose proof (Z.pow_pos_nonneg 2 (ln - ld + 1) ltac:(lia) ltac:(lia)). nia.
    + max_simpl. rewrite Z.pow_0_r.
      assert (P : 2 ^ ld = 2 ^ (ln + 1) * 2 ^ (- (ln - ld + 1)))
        by (rewrite <- pow2_add by lia; f_equal; lia).
      pose proof (Z.pow_pos_nonneg 2 (- (ln - ld + 1)) ltac:(lia) ltac:(lia)). nia.
  - unfold ge_pow2. apply Z.leb_le.
    destruct (Z_le_gt_dec 0 (ln - ld - 1)).
    + max_simpl. rewrite Z.pow_0_r.
      assert (P : 2 ^ ln = 2 ^ (ld + 1) * 2 ^ (ln - ld - 1))
        by (rewrite <- pow2_add by lia; f_equal; lia).
      pose proof (Z.pow_pos_nonneg 2 (ln - ld - 1) ltac:(lia) ltac:(lia)). nia.
    + max_simpl. rewrite Z.pow_0_r.
      assert (P : 2 ^ (ld + 1) = 2 ^ ln * 2 ^ (- (ln - ld - 1)))
        by (rewrite <- pow2_add by lia; f_equal; lia).
      pose proof (Z.pow_pos_nonneg 2 (- (ln - ld - 1)) ltac:(lia) ltac:(lia)). nia.
  - replace (ln - ld - 1 + 1) with (ln - ld) by lia. exact E.
Qed.
(** The quotient [round_ratio] rounds has 53 bits, or fewer at the least
    exponent. *)
Lemma round_ratio_quotient n d :
  0 < n -> 0 < d ->
  let e := Z.max (floor_log2 n d - 52) (-1074) in
  let q := (n * 2 ^ Z.max (- e) 0) / (d * 2 ^ Z.max e 0) in
  0 <= q < 2 ^ 53 /\ (2 ^ 52 <= q \/ e = -1074).
Proof.
  intros Hn Hd e q.
  destruct (floor_log2_spec n d Hn Hd) as [F1 F2]. unfold ge_pow2 in F1, F2.
  apply Z.leb_le in F1. apply Z.leb_gt in F2.
  set (L := floor_log2 n d) in *.
  assert (Hden : 0 < d * 2 ^ Z.max e 0)
    by (apply Z.mul_pos_pos; [exact Hd | apply Z.pow_pos_nonneg; lia]).
  assert (Hq0 : 0 <= q) by (apply Z.div_pos; [apply Z.mul_nonneg_nonneg; [lia | apply Z.pow_nonneg; lia] | exact Hden]).
  assert (G : n * 2 ^ Z.max (- e) 0 < d * 2 ^ Z.max e 0 * 2 ^ 53
              /\ (e = L - 52 -> d * 2 ^ Z.max e 0 * 2 ^ 52 <= n * 2 ^ Z.max (- e) 0)).
  { subst e. destruct (Z_le_gt_dec 52 L) as [HL | HL].
    - (* L >= 52 *)
      max_simpl. rewrite Z.pow_0_r in *.
      assert (P1 : 2 ^ (L + 1) = 2 ^ (L - 52) * 2 ^ 53)
        by (rewrite <- pow2_add by lia; f_equal; lia).
      assert (P2 : 2 ^ L = 2 ^ (L - 52) * 2 ^ 52)
        by (rewrite <- pow2_add by lia; f_equal; lia).
      split; [nia | intros _; nia].
    - destruct (Z_le_gt_dec 0 L) as [HL0 | HL0].
      + (* 0 <= L < 52 *)
        max_simpl. rewrite Z.pow_0_r in *.
        assert (P1 : 2 ^ 53 = 2 ^ (L + 1) * 2 ^ (- (L - 52)))
          by (rewrite <- pow2_add by lia; f_equal; lia).
        assert (P2 : 2 ^ 52 = 2 ^ L * 2 ^ (- (L - 52)))
          by (rewrite <- pow2_add by lia; f_equal; lia).
        split; [nia | intros _; nia].
      + destruct (Z_le_gt_dec (-1022) L) as [HL1 | HL1].
        * (* -1022 <= L < 0 *)
          max_simpl. rewrite Z.pow_0_r in *.
          assert (P1 : 2 ^ (- (L - 52)) = 2 ^ (- (L + 1)) * 2 ^ 53)
            by (rewrite <- pow2_add by lia; f_equal; lia).
          assert (P2 : 2 ^ (- (L - 52)) = 2 ^ (- L) * 2 ^ 52)
            by (rewrite <- pow2_add by lia; f_equal; lia).
          split; [nia | intros _; nia].
        * (* L < -1022 *)
          max_simpl. rewrite Z.pow_0_r in *.
          assert (P1 : 2 ^ 1074 = 2 ^ 1021 * 2 ^ 53)
            by (rewrite <- pow2_add by lia; reflexivity).
          assert (P2 : 2 ^ 1021 <= 2 ^ (- (L + 1)))
            by (apply Z.pow_le_mono_r; lia).
          split; [| intro; lia].
          change (- -1074) with 1074. rewrite P1.
          assert (n * 2 ^ 1021 <= n * 2 ^ (- (L + 1))) by (apply Z.mul_le_mono_nonneg_l; lia).
          assert (0 < 2 ^ 53) by reflexivity.
          generalize dependent (2 ^ 1021). generalize dependent (2 ^ 53).
          generalize dependent (2 ^ (- (L + 1))). intros. nia. }
  destruct G as [G1 G2]. split; [split |].
  - exact Hq0.
  - apply Z.div_lt_upper_bound; [exact Hden | lia].
  - destruct (Z.eq_dec e (L - 52)) as [He | He].
    + left. apply Z.div_le_lower_bound; [exact Hden | specialize (G2 He); lia].
    + right. subst e. lia.
Qed.

Lemma round_tail_canon neg x e :
  0 <= x <= 2 ^ 53 -> -1074 <= e -> (2 ^ 52 <= x \/ e = -1074) ->
  canon (if x =? 0 then S754_zero neg
         else if x =? 2 ^ 53 then
           (if e + 1 <=? 971 then S754_finite neg (Z.to_pos (2 ^ 52)) (e + 1)
            else S754_infinity neg)
         else if e <=? 971 then S754_finite neg (Z.to_pos x) e
         else S754_infinity neg).
Proof.
  intros Hx He Hm.
  destruct (Z.eqb_spec x 0); [exact I |].
  destruct (Z.eqb_spec x (2 ^ 53)).
  - destruct (e + 1 <=? 971); [| exact I]. simpl. lia.
  - destruct (e <=? 971); [| exact I]. simpl. rewrite Z2Pos.id by lia. lia.
Qed.

Lemma round_ratio_canon neg n d : 0 < d -> canon (round_ratio neg n d).
Proof.
  intro Hd. unfold round_ratio. destruct (Z.leb_spec n 0) as [Hn | Hn]; [exact I |].
  pose proof (round_ratio_quotient n d Hn Hd) as Hq. cbv zeta in Hq |- *.
  set (e := Z.max (floor_log2 n d - 52) (-1074)) in *.
  set (q := n * 2 ^ Z.max (- e) 0 / (d * 2 ^ Z.max e 0)) in *.
  set (q' := match _ with Lt => q | Eq => _ | Gt => _ end).
  assert (Hq' : q' = q \/ q' = q + 1)
    by (subst q'; destruct (_ ?= _); [destruct (Z.even q) | |]; auto).
  apply round_tail_canon; [lia | subst e; lia | lia].
Qed.

Lemma binary_round_aux_nonneg m e l :
  nonneg_double (binary_round_aux prec emax false m e l) = true.
Proof.
  unfold binary_round_aux.
  destruct (shr_fexp prec emax m e l) as [mrs e'].
  destruct (shr_fexp prec emax _ e' loc_Exact) as [mrs'' e''].
  destruct (shr_m mrs''); try reflexivity.
  destruct (e'' <=? emax - prec); reflexivity.
Qed.

Lemma binary_normalize_nonneg m e :
  0 <= m -> nonneg_double (binary_normalize prec emax m e false) = true.
Proof.
  intro Hm. destruct m as [| p | p]; [reflexivity | | lia].
  unfold binary_normalize, binary_round.
  destruct (shl_align _ _ _) as [mz ez]. apply binary_round_aux_nonneg.
Qed.

Lemma dadd_nonneg x y :
  nonneg_double x = true -> nonneg_double y = true -> nonneg_double (dadd x y) = true.
Proof.
  unfold dadd, SFadd.
  destruct x as [[] | [] | | [] mx ex]; destruct y as [[] | [] | | [] my ey];
    intros H1 H2; try discriminate; try reflexivity.
  apply binary_normalize_nonneg. simpl. lia.
Qed.

Lemma iter_xO_value m p : Zpos (Pos.iter xO m p) = Zpos m * 2 ^ Zpos p.
Proof.
  induction p as [| p IH] using Pos.peano_ind; [simpl; lia |].
  rewrite Pos.iter_succ, Pos2Z.inj_succ, Z.pow_succ_r by lia.
  change (Zpos (xO (Pos.iter xO m p))) with (2 * Zpos (Pos.iter xO m p)).
  rewrite IH. lia.
Qed.

Lemma shl_align_value m e e' :
  e' <= e -> Zpos (fst (shl_align m e e')) = Zpos m * 2 ^ (e - e').
Proof.
  intro H. unfold shl_align.
  destruct (e' - e) as [| p | p] eqn:E.
  - replace (e - e') with 0 by lia. simpl. lia.
  - lia.
  - simpl. rewrite iter_xO_value. replace (e - e') with (Zpos p) by lia. reflexivity.
Qed.

Lemma dsub_nonneg x y :
  nonneg_double x = true -> nonneg_double y = true -> canon x -> canon y ->
  dltb x y = false -> nonneg_double (dsub x y) = true.
Proof.
  unfold dsub, dltb, SFsub, SFltb, SFcompare.
  destruct x as [[] | [] | | [] mx ex]; destruct y as [[] | [] | | [] my ey];
    intros H1 H2 Cx Cy Hlt; try discriminate; try reflexivity.
  apply binary_normalize_nonneg. hnf in Cx, Cy. unfold cond_Zopp. cbv beta iota.
  destruct (Z.compare_spec ex ey) as [Ee | Ee | Ee]; try discriminate.
  - subst ey. rewrite Z.min_id.
    rewrite !shl_align_value by lia. rewrite Z.sub_diag, Z.pow_0_r.
    change (Pos.compare_cont Eq mx my) with (Pos.compare mx my) in Hlt.
    destruct (Pos.compare_spec mx my) as [-> | Hm | Hm]; try discriminate; lia.
  - rewrite Z.min_r by lia. rewrite !shl_align_value by lia. rewrite Z.sub_diag, Z.pow_0_r.
    assert (Hmx : 2 ^ 52 <= Zpos mx) by lia.
    assert (P : 2 ^ 1 <= 2 ^ (ex - ey)) by (apply Z.pow_le_mono_r; lia).
    assert (0 < 2 ^ 52) by reflexivity.
    change (2 ^ 53) with (2 ^ 52 * 2 ^ 1) in Cy.
    generalize dependent (2 ^ (ex - ey)). generalize dependent (2 ^ 52). intros. nia.
Qed.

Lemma shortest_aux_nonneg fuel k neg n d p x :
  0 <= n -> 0 < d -> 0 <= fst (shortest_aux fuel k neg n d p x).
Proof.
  intros Hn Hd. revert k. induction fuel as [| f IH]; intro k; cbn [shortest_aux]; cbv zeta;
  (assert (Hs : 0 <= n * 10 ^ Z.max (- (p + 1 - k)) 0 / (d * 10 ^ Z.max (p + 1 - k) 0))
     by (apply Z.div_pos; [apply Z.mul_nonneg_nonneg; [lia | apply Z.pow_nonneg; lia]
                          | apply Z.mul_pos_pos; [lia | apply Z.pow_pos_nonneg; lia]])).
  - exact Hs.
  - repeat match goal with
           | |- context [if ?b then _ else _] => destruct b
           | |- context [match ?c with Lt => _ | Eq => _ | Gt => _ end] => destruct c
           end; cbn [fst]; try lia; apply IH.
Qed.

Lemma dec_round_nonneg n d v : 0 <= n -> 0 < d -> dec_round false n d = Some v -> 0 <= v.
Proof.
  unfold dec_round. intros Hn Hd E.
  destruct (_ <=? decimal_limit); [| discriminate].
  assert (0 < 10 ^ 8) by reflexivity.
  assert (Hu : 0 <= (2 * n * 10 ^ 8 + d) / (2 * d)) by (apply Z.div_pos; nia).
  replace v with ((2 * n * 10 ^ 8 + d) / (2 * d)) by congruence. exact Hu.
Qed.

Lemma number_to_decimal_nonneg x v :
  nonneg_double x = true -> number_to_decimal x = Some v -> 0 <= v.
Proof.
  unfold number_to_decimal, js_number_value.
  destruct x as [s | s | | s m e]; intros H E; try discriminate.
  - vm_compute in E. injection E as <-. lia.
  - destruct s; [discriminate |]. cbv zeta in E.
    destruct (shortest_aux _ _ _ _ _ _ _) as [s' t] eqn:Es.
    pose proof (shortest_aux_nonneg 17 1 false (Zpos m * 2 ^ Z.max e 0) (2 ^ Z.max (- e) 0)
                  (floor_log10 (Zpos m * 2 ^ Z.max e 0) (2 ^ Z.max (- e) 0))
                  (S754_finite false m e)) as Hs.
    rewrite Es in Hs. cbn [fst] in Hs.
    replace (s' <? 0) with false in E by (symmetry; apply Z.ltb_ge; lia).
    refine (dec_round_nonneg _ _ _ _ _ E).
    + apply Z.mul_nonneg_nonneg; [lia | apply Z.pow_nonneg; lia].
    + apply Z.pow_pos_nonneg; lia.
Qed.

Lemma parseFloat_canon a : canon (parseFloat a).
Proof.
  unfold parseFloat, ratio_to_double.
  destruct (_ <? 0); apply round_ratio_canon, Z.pow_pos_nonneg; lia.
Qed.

(** ** C3: balances stay non-negative *)

Lemma nonneg_update d walletId nb :
  nonneg_balances d -> 0 <= nb -> nonneg_balances (db_update_balance d walletId nb).
Proof.
  unfold nonneg_balances, db_update_balance. simpl. intros H Hnb.
  apply Forall_map. eapply Forall_impl; [| exact H].
  intros w Hw. unfold upd_wallet. destruct (Z.eqb (w_id w) walletId); simpl; assumption.
Qed.

Lemma nonneg_insert_transaction d t :
  nonneg_balances d -> nonneg_balances (db_insert_transaction d t).
Proof. exact (fun H => H). Qed.

Lemma nonneg_find d walletId w :
  nonneg_balances d -> find_wallet (wallets d) walletId = Some w -> 0 <= balance w.
Proof.
  intros H Hf. apply find_wallet_in in Hf.
  unfold nonneg_balances in H. rewrite Forall_forall in H. exact (H w Hf).
Qed.

(** The stored value of [parseFloat(balance) + parseFloat(amount)] for a
    balance and an amount >= 0 is >= 0. *)
Lemma stored_sum_nonneg b a v :
  0 <= b -> 0 <= num_digits a ->
  number_to_decimal (dadd (parseFloat (units b)) (parseFloat a)) = Some v -> 0 <= v.
Proof.
  intros Hb Ha E. apply (number_to_decimal_nonneg _ _ (dadd_nonneg _ _
    (parseFloat_nonneg (units b) Hb) (parseFloat_nonneg a Ha)) E).
Qed.

(** The stored value of [parseFloat(balance) - parseFloat(amount)], after
    the check [parseFloat(balance) < parseFloat(amount)] failed, is >= 0. *)
Lemma stored_difference_nonneg b a v :
  0 <= b -> 0 <= num_digits a ->
  dltb (parseFloat (units b)) (parseFloat a) = false ->
  number_to_decimal (dsub (parseFloat (units b)) (parseFloat a)) = Some v -> 0 <= v.
Proof.
  intros Hb Ha Hlt E. refine (number_to_decimal_nonneg _ _ _ E).
  apply dsub_nonneg; auto using parseFloat_nonneg, parseFloat_canon.
Qed.

Lemma nonneg_create d u code addr :
  nonneg_balances d -> nonneg_balances (snd (run (create u code addr) d)).
Proof.
  intro H. rewrite create_unfold.
  destruct (negb _); [exact H |]. destruct (existsb _ _); [exact H |].
  destruct (wallet_insert_ok _ _ _ _); [| exact H].
  unfold nonneg_balances, db_insert_wallet. simpl.
  apply Forall_app. split; [exact H | constructor; [simpl; lia | constructor]].
Qed.

Lemma nonneg_transfer d u input :
  nonneg_balances d -> 0 <= num_digits (in_amount input) ->
  nonneg_balances (snd (run (transfer u input) d)).
Proof.
  intros H Ha. rewrite transfer_unfold. cbv zeta.
  destruct (find_wallet (wallets d) (in_fromWalletId input)) as [fw |] eqn:Ef; [| exact H].
  destruct (negb _); [exact H |].
  destruct (find_wallet (wallets d) (in_toWalletId input)) as [tw |] eqn:Et; [| exact H].
  destruct (dltb (parseFloat (units (balance fw))) (parseFloat (in_amount input))) eqn:Eb;
    [exact H |].
  destruct (store_transaction _); [| exact H].
  pose proof (nonneg_find _ _ _ H Ef) as Hfw. pose proof (nonneg_find _ _ _ H Et) as Htw.
  destruct (number_to_decimal (dsub (parseFloat (units (balance fw))) (parseFloat (in_amount input))))
    as [nf |] eqn:Enf; [| exact H].
  pose proof (stored_difference_nonneg _ _ _ Hfw Ha Eb Enf).
  destruct (number_to_decimal (dadd (parseFloat (units (balance tw))) (parseFloat (in_amount input))))
    as [nt |] eqn:Ent;
    [pose proof (stored_sum_nonneg _ _ _ Htw Ha Ent) |];
    cbn [snd]; repeat apply nonneg_update; auto using nonneg_insert_transaction.
Qed.

Lemma nonneg_deposit d u input :
  nonneg_balances d -> 0 <= num_digits (op_amount input) ->
  nonneg_balances (snd (run (recordDeposit u input) d)).
Proof.
  intros H Ha. rewrite recordDeposit_unfold.
  destruct (find_wallet (wallets d) (op_walletId input)) as [w |] eqn:Ew; [| exact H].
  destruct (negb _); [exact H |].
  destruct (store_transaction _); [| exact H].
  pose proof (nonneg_find _ _ _ H Ew) as Hw.
  destruct (number_to_decimal (dadd (parseFloat (units (balance w))) (parseFloat (op_amount input))))
    as [nb |] eqn:Enb; [| exact H].
  pose proof (stored_sum_nonneg _ _ _ Hw Ha Enb).
  apply nonneg_update; auto using nonneg_insert_transaction.
Qed.

Lemma nonneg_withdrawal d u input :
  nonneg_balances d -> 0 <= num_digits (op_amount input) ->
  nonneg_balances (snd (run (recordWithdrawal u input) d)).
Proof.
  intros H Ha. rewrite recordWithdrawal_unfold. cbv zeta.
  destruct (find_wallet (wallets d) (op_walletId input)) as [w |] eqn:Ew; [| exact H].
  destruct (negb _); [exact H |].
  destruct (dltb (parseFloat (units (balance w))) (parseFloat (op_amount input))) eqn:Eb;
    [exact H |].
  destruct (store_transaction _); [| exact H].
  pose proof (nonneg_find _ _ _ H Ew) as Hw.
  destruct (number_to_decimal (dsub (parseFloat (units (balance w))) (parseFloat (op_amount input))))
    as [nb |] eqn:Enb; [| exact H].
  pose proof (stored_difference_nonneg _ _ _ Hw Ha Eb Enb).
  apply nonneg_update; auto using nonneg_insert_transaction.
Qed.

Lemma nonneg_initiate_withdrawal d u input :
  nonneg_balances d ->
  nonneg_balances (snd (run (initiateWithdrawal u input) d)).
Proof.
  intros H. rewrite initiateWithdrawal_unfold.
  destruct (crypto_wallet_of _ _ _); [| exact H].
  destruct (dltb _ _); [exact H |].
  destruct (store_transaction _); exact H.
Qed.

Lemma nonneg_exec_op d o :
  nonneg_balances d -> op_amount_nonneg o = true -> nonneg_balances (exec_op o d).
Proof.
  intros H Ho. destruct o; simpl in Ho |- *; unfold exec_op; simpl.
  - apply nonneg_create, H.
  - apply nonneg_transfer; [exact H | apply Z.leb_le, Ho].
  - apply nonneg_deposit; [exact H | apply Z.leb_le, Ho].
  - apply nonneg_withdrawal; [exact H | apply Z.leb_le, Ho].
  - apply nonneg_initiate_withdrawal, H.
Qed.

(** C3 (counterexample). Starting from the empty ledger, user 1 creates a
    USD wallet (balance 0, id 1) and records a deposit of -0.00000005 (-5
    units) into it: the wallet's balance becomes -5 units. *)
Lemma negative_balance_reachable_cex :
  balance_of (exec_ops [OpCreate 1 "USD" None;
                        OpDeposit 1 (mkWalletOpInput 1 (units (-5)) None None)] empty_db) 1
  = Some (-5).
Proof. vm_compute. reflexivity. Qed.

(** C3 (amended). From a ledger whose balances are all >= 0 (in particular
    the empty one, where every wallet is created with balance 0), any
    sequence of create, transfer, recordDeposit, recordWithdrawal and
    initiateWithdrawal requests whose amounts are all >= 0 leaves every
    balance >= 0. *)
Theorem nonneg_balances_preserved os d :
  Forall (fun o => op_amount_nonneg o = true) os ->
  nonneg_balances d ->
  nonneg_balances (exec_ops os d).
Proof.
  revert d. induction os as [| o os IH]; intros d Hos Hd; simpl; [exact Hd |].
  inversion Hos as [| o' os' Ho Hos']; subst.
  apply IH; [exact Hos' | apply nonneg_exec_op; assumption].
Qed.

Lemma nonneg_balances_preserved_witness :
  nonneg_balances
    (exec_ops [OpCreate 1 "USD" None; OpCreate 2 "USD" None;
               OpDeposit 1 (mkWalletOpInput 1 (units 100) None None);
               OpTransfer 1 (mkTransferInput 2 1 2 (units 30) None);
               OpWithdrawal 2 (mkWalletOpInput 2 (units 10) None None)] empty_db).
Proof.
  apply nonneg_balances_preserved.
  - repeat constructor.
  - constructor.
Defined.

(** * Further properties of the procedures *)

(** Case analysis on every match of the goal. *)
Ltac case_matches :=
  repeat match goal with
         | |- context [match ?x with _ => _ end] => let E := fresh "E" in destruct x eqn:E
         end.

(** ** Deposits and withdrawals *)

(** A [recordDeposit] on a wallet of the caller whose record fits its
    columns and whose new balance, the string of
    [parseFloat(balance) + parseFloat(amount)], fits [decimal(18,8)],
    succeeds: the wallet's balance becomes that value, every other wallet
    keeps its balance, and one completed deposit record is appended whose
    amount is the amount string rounded to 8 decimals. *)
Theorem recordDeposit_effect d u input w t nb :
  find_wallet (wallets d) (op_walletId input) = Some w ->
  userId w = u ->
  store_transaction (deposit_data u input) = Some t ->
  number_to_decimal (dadd (parseFloat (units (balance w))) (parseFloat (op_amount input))) = Some nb ->
  let r := run (recordDeposit u input) d in
  fst r = Success "Deposit recorded successfully"
  /\ balance_of (snd r) (op_walletId input) = Some nb
  /\ (forall walletId, walletId <> op_walletId input ->
        balance_of (snd r) walletId = balance_of d walletId)
  /\ transactions (snd r) = (transactions d ++ [t])%list
  /\ txType t = deposit_t /\ status t = completed
  /\ numeral_to_decimal (op_amount input) = Some (amount t).
Proof.
  intros Hw Hu Hs Hn r. subst r. rewrite recordDeposit_unfold, Hw. subst u.
  rewrite Z.eqb_refl. cbn [negb]. rewrite Hs, Hn. cbn [fst snd].
  destruct (store_transaction_inv _ _ Hs) as (a & f & Ha & _ & ->).
  split; [reflexivity |]. split; [| split; [| split; [reflexivity | auto]]].
  - rewrite balance_of_update, Z.eqb_refl, balance_of_insert_transaction,
      (balance_of_find _ _ _ Hw). reflexivity.
  - intros walletId Hne. rewrite balance_of_update.
    destruct (Z.eqb_spec walletId (op_walletId input)); [contradiction | reflexivity].
Qed.

Lemma recordDeposit_effect_witness :
  let input := mkWalletOpInput 2 (units 7) None None in
  let t := mkTransaction None (Some 2) 2 (Some 2) 7 0 deposit_t completed None (Some "Deposit") in
  let r := run (recordDeposit 2 input) sample_db in
  fst r = Success "Deposit recorded successfully"
  /\ balance_of (snd r) (op_walletId input) = Some 12
  /\ (forall walletId, walletId <> op_walletId input ->
        balance_of (snd r) walletId = balance_of sample_db walletId)
  /\ transactions (snd r) = (transactions sample_db ++ [t])%list
  /\ txType t = deposit_t /\ status t = completed
  /\ numeral_to_decimal (op_amount input) = Some (amount t).
Proof.
  apply (recordDeposit_effect sample_db 2 (mkWalletOpInput 2 (units 7) None None)
           (mkWallet 2 2 "USD" 5 None true)
           (mkTransaction None (Some 2) 2 (Some 2) 7 0 deposit_t completed None (Some "Deposit"))
           12); vm_compute; reflexivity.
Defined.

(** [recordWithdrawal] succeeds exactly when the wallet exists and belongs
    to the caller, [parseFloat(balance) < parseFloat(amount)] is false, the
    record fits its columns and the new balance, the string of
    [parseFloat(balance) - parseFloat(amount)], fits [decimal(18,8)]. *)
Theorem recordWithdrawal_success_iff d u input :
  (exists msg, fst (run (recordWithdrawal u input) d) = Success msg) <->
  (exists w t nb,
     find_wallet (wallets d) (op_walletId input) = Some w
     /\ userId w = u
     /\ dltb (parseFloat (units (balance w))) (parseFloat (op_amount input)) = false
     /\ store_transaction (withdrawal_data u input) = Some t
     /\ number_to_decimal (dsub (parseFloat (units (balance w))) (parseFloat (op_amount input)))
        = Some nb).
Proof.
  rewrite recordWithdrawal_unfold. split.
  - intros [msg H]. revert H.
    destruct (find_wallet (wallets d) (op_walletId input)) as [w |] eqn:Ew; [| discriminate].
    destruct (Z.eqb (userId w) u) eqn:Eu; cbn [negb]; [| discriminate].
    cbv zeta. destruct (dltb _ _) eqn:Eb; [discriminate |].
    destruct (store_transaction _) as [t |] eqn:Es; [| discriminate].
    destruct (number_to_decimal _) as [nb |] eqn:En; [| discriminate].
    intros _. apply Z.eqb_eq in Eu. exists w, t, nb. auto 6.
  - intros (w & t & nb & Hw & Hu & Hb & Hs & Hn).
    rewrite Hw. subst u. rewrite Z.eqb_refl. cbn [negb]. cbv zeta.
    rewrite Hb, Hs, Hn. eexists. reflexivity.
Qed.

(** A [recordWithdrawal] that passes its checks and whose two writes are
    accepted sets the wallet's balance to the string of
    [parseFloat(balance) - parseFloat(amount)], keeps every other wallet's
    balance and appends one completed withdrawal record whose amount is the
    amount string rounded to 8 decimals. *)
Theorem recordWithdrawal_effect d u input w t nb :
  find_wallet (wallets d) (op_walletId input) = Some w ->
  userId w = u ->
  dltb (parseFloat (units (balance w))) (parseFloat (op_amount input)) = false ->
  store_transaction (withdrawal_data u input) = Some t ->
  number_to_decimal (dsub (parseFloat (units (balance w))) (parseFloat (op_amount input))) = Some nb ->
  let r := run (recordWithdrawal u input) d in
  fst r = Success "Withdrawal recorded successfully"
  /\ balance_of (snd r) (op_walletId input) = Some nb
  /\ (forall walletId, walletId <> op_walletId input ->
        balance_of (snd r) walletId = balance_of d walletId)
  /\ transactions (snd r) = (transactions d ++ [t])%list
  /\ txType t = withdrawal_t /\ status t = completed
  /\ numeral_to_decimal (op_amount input) = Some (amount t).
Proof.
  intros Hw Hu Hb Hs Hn r. subst r. rewrite recordWithdrawal_unfold, Hw. subst u.
  rewrite Z.eqb_refl. cbn [negb]. cbv zeta. rewrite Hb, Hs, Hn. cbn [fst snd].
  destruct (store_transaction_inv _ _ Hs) as (a & f & Ha & _ & ->).
  split; [reflexivity |]. split; [| split; [| split; [reflexivity | auto]]].
  - rewrite balance_of_update, Z.eqb_refl, balance_of_insert_transaction,
      (balance_of_find _ _ _ Hw). reflexivity.
  - intros walletId Hne. rewrite balance_of_update.
    destruct (Z.eqb_spec walletId (op_walletId input)); [contradiction | reflexivity].
Qed.

Lemma recordWithdrawal_effect_witness :
  let input := mkWalletOpInput 1 (units 40) None None in
  let t := mkTransaction (Some 1) None 1 (Some 1) 40 0 withdrawal_t completed None (Some "Withdrawal") in
  let r := run (recordWithdrawal 1 input) sample_db in
  fst r = Success "Withdrawal recorded successfully"
  /\ balance_of (snd r) (op_walletId input) = Some 60
  /\ (forall walletId, walletId <> op_walletId input ->
        balance_of (snd r) walletId = balance_of sample_db walletId)
  /\ transactions (snd r) = (transactions sample_db ++ [t])%list
  /\ txType t = withdrawal_t /\ status t = completed
  /\ numeral_to_decimal (op_amount input) = Some (amount t).
Proof.
  apply (recordWithdrawal_effect sample_db 1 (mkWalletOpInput 1 (units 40) None None)
           (mkWallet 1 1 "USD" 100 None true)
           (mkTransaction (Some 1) None 1 (Some 1) 40 0 withdrawal_t completed None (Some "Withdrawal"))
           60); vm_compute; reflexivity.
Defined.

(** ** Error answers and records *)

(** A mutating request (create, transfer, recordDeposit, recordWithdrawal,
    initiateWithdrawal) that answers with an error other than the one of
    its [catch] leaves the database unchanged: every such answer is given
    before the first write. *)
Theorem run_op_failure_unchanged o d e d' :
  run_op o d = (Failure e, d') -> e <> catch_error o -> d' = d.
Proof.
  intros H Hne. revert H.
  destruct o as [u code addr | u input | u input | u input | u input]; unfold run_op;
    [rewrite create_unfold | rewrite transfer_unfold | rewrite recordDeposit_unfold
    | rewrite recordWithdrawal_unfold | rewrite initiateWithdrawal_unfold];
    cbv zeta; case_matches; intro H; try discriminate H;
    injection H as He Hd; subst; first [reflexivity | exfalso; apply Hne; reflexivity].
Qed.

Lemma run_op_failure_unchanged_witness :
  snd (run_op (OpWithdrawal 1 (mkWalletOpInput 1 (units 500) None None)) sample_db) = sample_db.
Proof.
  refine (run_op_failure_unchanged (OpWithdrawal 1 (mkWalletOpInput 1 (units 500) None None))
            sample_db "Insufficient balance" _ _ _).
  - vm_compute. reflexivity.
  - intro E. vm_compute in E. discriminate E.
Defined.

(** Every successful transfer, recordDeposit, recordWithdrawal or
    initiateWithdrawal appends exactly one Transaction record; a successful
    create appends none. *)
Theorem run_op_success_one_record o d m d' :
  run_op o d = (Success m, d') ->
  match o with
  | OpCreate _ _ _ => transactions d' = transactions d
  | _ => exists t, transactions d' = (transactions d ++ [t])%list
  end.
Proof.
  destruct o as [u code addr | u input | u input | u input | u input]; unfold run_op;
    [rewrite create_unfold | rewrite transfer_unfold | rewrite recordDeposit_unfold
    | rewrite recordWithdrawal_unfold | rewrite initiateWithdrawal_unfold];
    cbv zeta; case_matches; intro H; try discriminate H;
    injection H as _ Hd; subst; first [reflexivity | eexists; reflexivity].
Qed.

Lemma run_op_success_one_record_witness :
  exists t, transactions (snd (run_op (OpDeposit 2 (mkWalletOpInput 2 (units 7) None None)) sample_db))
            = (transactions sample_db ++ [t])%list.
Proof.
  refine (run_op_success_one_record (OpDeposit 2 (mkWalletOpInput 2 (units 7) None None)) sample_db
            "Deposit recorded successfully" _ _).
  vm_compute. reflexivity.
Defined.

(** ** Invariants of the wallets table *)

(** [generateAddress], case by case: with no wallet in the currency it
    inserts one with the mock address, unless the insert is rejected. *)
Lemma generateAddress_unfold d u c :
  run (generateAddress u c) d =
  if existsb (has_code c) (user_wallets (wallets d) u) then
    (match find (has_code c) (user_wallets (wallets d) u) with
     | Some w => Some (or_default (address w) btc_mock_address)
     | None => Some btc_mock_address
     end, d)
  else if wallet_insert_ok d u (crypto_code c) (Some (mock_address c))
  then (Some (mock_address c), db_insert_wallet d u (crypto_code c) (Some (mock_address c)))
  else (None, d).
Proof.
  unfold generateAddress, try_catch, ebind, getUserWallets, createWallet, db_call, return_,
    wallet_insert_ok. cbn [bind run option_map].
  destruct (existsb _ _); cbn [bind run].
  - destruct (find _ _); reflexivity.
  - destruct (_ && _); reflexivity.
Qed.

Lemma ids_ok_update d walletId nb : ids_ok d -> ids_ok (db_update_balance d walletId nb).
Proof.
  unfold ids_ok, db_update_balance. cbn [wallets next_wallet_id].
  intros [H1 H2]. rewrite map_map.
  rewrite (map_ext _ _ (upd_wallet_id walletId nb)). split; [exact H1 |].
  apply Forall_map. eapply Forall_impl; [| exact H2]. intros w Hw.
  rewrite upd_wallet_id. exact Hw.
Qed.

Lemma ids_ok_insert_transaction d t : ids_ok d -> ids_ok (db_insert_transaction d t).
Proof. exact (fun H => H). Qed.

Lemma ids_ok_insert_wallet d u code addr : ids_ok d -> ids_ok (db_insert_wallet d u code addr).
Proof.
  unfold ids_ok, db_insert_wallet. cbn [wallets next_wallet_id]. intros [H1 H2]. split.
  - rewrite map_app. apply NoDup_app; [exact H1 | constructor; [intros [] | constructor] |].
    intros a Ha [Ha' | []]. cbn in Ha'. subst a.
    apply in_map_iff in Ha as (w & Hw & Hin).
    rewrite Forall_forall in H2. specialize (H2 w Hin). cbv beta in *. lia.
  - apply Forall_app. split.
    + eapply Forall_impl; [| exact H2]. intros w Hw. cbv beta in *. lia.
    + constructor; [cbn; lia | constructor].
Qed.

Lemma owner_unique_update d walletId nb :
  owner_currency_unique d -> owner_currency_unique (db_update_balance d walletId nb).
Proof.
  unfold owner_currency_unique, db_update_balance. cbn [wallets].
  rewrite map_map.
  replace (map (fun w => (userId (upd_wallet walletId nb w), currencyCode (upd_wallet walletId nb w)))
               (wallets d))
    with (map (fun w => (userId w, currencyCode w)) (wallets d)); [exact (fun H => H) |].
  apply map_ext. intro w. unfold upd_wallet. destruct (Z.eqb (w_id w) walletId); reflexivity.
Qed.

Lemma owner_unique_insert_transaction d t :
  owner_currency_unique d -> owner_currency_unique (db_insert_transaction d t).
Proof. exact (fun H => H). Qed.

Lemma owner_unique_insert_wallet d u code addr :
  existsb (fun w => String.eqb (currencyCode w) code) (user_wallets (wallets d) u) = false ->
  owner_currency_unique d -> owner_currency_unique (db_insert_wallet d u code addr).
Proof.
  unfold owner_currency_unique, db_insert_wallet, user_wallets. cbn [wallets]. intros Hn H.
  rewrite map_app. apply NoDup_app; [exact H | constructor; [intros [] | constructor] |].
  intros a Ha [Ha' | []]. cbn in Ha'. subst a.
  apply in_map_iff in Ha as (w & Hw & Hin). injection Hw as Hu Hc.
  assert (Hf : In w (filter (fun w => Z.eqb (userId w) u) (wallets d)))
    by (apply filter_In; split; [exact Hin | apply Z.eqb_eq, Hu]).
  assert (existsb (fun w => String.eqb (currencyCode w) code)
            (filter (fun w => Z.eqb (userId w) u) (wallets d)) = true)
    by (apply existsb_exists; exists w; split; [exact Hf | apply String.eqb_eq, Hc]).
  congruence.
Qed.

Ltac close_db_invariant :=
  repeat first [ assumption
               | apply ids_ok_update | apply ids_ok_insert_transaction
               | apply ids_ok_insert_wallet
               | apply owner_unique_update | apply owner_unique_insert_transaction
               | apply owner_unique_insert_wallet ].

(** Every request, one case per procedure and per branch. *)
Ltac exec_any_cases o :=
  destruct o as [[u code addr | u input | u input | u input | u input] | u c];
  unfold exec_any, exec_op, run_op; cbv beta iota;
  [rewrite create_unfold | rewrite transfer_unfold | rewrite recordDeposit_unfold
  | rewrite recordWithdrawal_unfold | rewrite initiateWithdrawal_unfold
  | rewrite generateAddress_unfold];
  cbv zeta; case_matches; cbn [snd].

Lemma ids_ok_exec_any o d : ids_ok d -> ids_ok (exec_any o d).
Proof. intro H. exec_any_cases o; close_db_invariant. Qed.

Lemma owner_unique_exec_any o d :
  owner_currency_unique d -> owner_currency_unique (exec_any o d).
Proof. intro H. exec_any_cases o; close_db_invariant. Qed.

(** Wallet ids stay pairwise distinct and below the AUTO_INCREMENT counter
    through any sequence of create, transfer, recordDeposit,
    recordWithdrawal, initiateWithdrawal and generateAddress requests. *)
Theorem wallet_ids_unique_preserved os d :
  ids_ok d -> ids_ok (exec_anys os d).
Proof.
  revert d. induction os as [| o os IH]; intros d H; cbn [exec_anys fold_left]; [exact H |].
  apply IH, ids_ok_exec_any, H.
Qed.

Lemma wallet_ids_unique_preserved_witness :
  ids_ok (exec_anys [Ledger (OpCreate 1 "USD" None); OpGenerateAddress 1 BTC;
                     Ledger (OpCreate 2 "USD" None); OpGenerateAddress 1 BTC] empty_db).
Proof.
  apply wallet_ids_unique_preserved. split; constructor.
Defined.

(** Run one after the other, create, generateAddress and the balance
    requests never give a user a second wallet in a currency: no two
    wallets share owner and currency code. *)
Theorem owner_currency_unique_preserved os d :
  owner_currency_unique d -> owner_currency_unique (exec_anys os d).
Proof.
  revert d. induction os as [| o os IH]; intros d H; cbn [exec_anys fold_left]; [exact H |].
  apply IH, owner_unique_exec_any, H.
Qed.

Lemma owner_currency_unique_preserved_witness :
  owner_currency_unique
    (exec_anys [Ledger (OpCreate 1 "BTC" None); OpGenerateAddress 1 BTC;
                OpGenerateAddress 1 ETH; Ledger (OpCreate 1 "ETH" None)] empty_db).
Proof.
  apply owner_currency_unique_preserved. constructor.
Defined.

(** ** Round trips *)

Lemma find_wallet_app_fresh ws w walletId :
  Forall (fun w' => w_id w' < walletId) ws -> w_id w = walletId ->
  find_wallet (ws ++ [w])%list walletId = Some w.
Proof.
  unfold find_wallet. intros H Hw. induction ws as [| w' ws IH]; cbn [app find].
  - rewrite Hw, Z.eqb_refl. reflexivity.
  - inversion H as [| x l Hx Hl].
    destruct (Z.eqb_spec (w_id w') walletId); [lia |]. apply IH, Hl.
Qed.

(** After a successful [create] (a valid code, no wallet of the caller in
    [code], a row that fits its columns), [walletsRouter.getBalance] on the
    next AUTO_INCREMENT id answers balance 0 in currency [code]. *)
Theorem create_then_getBalance d u code addr :
  ids_ok d ->
  valid_currency_code code = true ->
  existsb (fun w => String.eqb (currencyCode w) code) (user_wallets (wallets d) u) = false ->
  wallet_insert_ok d u code addr = true ->
  let d1 := snd (run (create u code addr) d) in
  fst (run (wallets_getBalance u (next_wallet_id d)) d1) = Some (0, code).
Proof.
  intros [_ Hlt] Hv Hn Hi d1. subst d1. rewrite create_unfold, Hv, Hn, Hi. cbn [negb snd].
  unfold wallets_getBalance, getWalletById, try_catch, ebind, db_call, return_.
  cbn [bind run option_map]. unfold db_insert_wallet. cbn [wallets].
  rewrite (find_wallet_app_fresh _ (mkWallet (next_wallet_id d) u code 0 addr true) _ Hlt eq_refl).
  cbn [userId balance currencyCode]. rewrite Z.eqb_refl. reflexivity.
Qed.

Lemma create_then_getBalance_witness :
  fst (run (wallets_getBalance 2 (next_wallet_id sample_db))
           (snd (run (create 2 "EUR" None) sample_db))) = Some (0, "EUR").
Proof.
  apply create_then_getBalance.
  - split; [repeat constructor; simpl; intuition lia | repeat constructor; simpl; lia].
  - reflexivity.
  - reflexivity.
  - reflexivity.
Defined.

(** ** Deposit addresses *)

Lemma find_app_none {A} (f : A -> bool) l x :
  find f l = None -> find f (l ++ [x])%list = if f x then Some x else None.
Proof.
  induction l as [| y l IH]; cbn [app find]; intro H; [reflexivity |].
  destruct (f y); [discriminate | apply IH, H].
Qed.

Lemma existsb_find_none {A} (f : A -> bool) l :
  existsb f l = false -> find f l = None.
Proof.
  induction l as [| y l IH]; cbn [existsb find]; intro H; [reflexivity |].
  apply orb_false_iff in H as [H1 H2]. rewrite H1. apply IH, H2.
Qed.

Lemma user_wallets_snoc ws w u :
  userId w = u -> user_wallets (ws ++ [w])%list u = (user_wallets ws u ++ [w])%list.
Proof.
  intro Hu. unfold user_wallets. rewrite filter_app. cbn [filter].
  rewrite Hu, Z.eqb_refl. reflexivity.
Qed.

(** The caller's wallets after [generateAddress] inserted one. *)
Lemma user_wallets_generated d u c :
  existsb (has_code c) (user_wallets (wallets d) u) = false ->
  let ws := user_wallets (wallets (db_insert_wallet d u (crypto_code c) (Some (mock_address c)))) u in
  existsb (has_code c) ws = true
  /\ find (has_code c) ws = Some (mkWallet (next_wallet_id d) u (crypto_code c) 0
                                         (Some (mock_address c)) true).
Proof.
  intros E ws. subst ws. unfold db_insert_wallet. cbn [wallets].
  rewrite user_wallets_snoc by reflexivity. rewrite existsb_app, E.
  rewrite (find_app_none _ _ _ (existsb_find_none _ _ E)).
  destruct c; split; reflexivity.
Qed.

(** [generateAddress] is idempotent: a second call for the same user and
    cryptocurrency answers the same address as the first one and changes
    nothing. *)
Theorem generateAddress_idempotent d u c :
  let r1 := run (generateAddress u c) d in
  run (generateAddress u c) (snd r1) = r1.
Proof.
  intro r1. subst r1. rewrite (generateAddress_unfold d u c).
  destruct (existsb (has_code c) (user_wallets (wallets d) u)) eqn:E; cbn [snd].
  - rewrite generateAddress_unfold, E. reflexivity.
  - destruct (wallet_insert_ok d u (crypto_code c) (Some (mock_address c))) eqn:F; cbn [snd].
    + rewrite generateAddress_unfold.
      destruct (user_wallets_generated d u c E) as [-> ->].
      destruct c; reflexivity.
    + rewrite generateAddress_unfold, E, F. reflexivity.
Qed.

Lemma generateAddress_idempotent_witness :
  let r1 := run (generateAddress 1 ETH) sample_db in
  run (generateAddress 1 ETH) (snd r1) = r1.
Proof. exact (generateAddress_idempotent sample_db 1 ETH). Defined.

(** When the caller has no wallet in the cryptocurrency and the new row
    fits its columns, [generateAddress] creates one with the mock address
    of that coin and answers it, and [getDepositAddress] then answers that
    address. *)
Theorem generateAddress_then_getDepositAddress d u c :
  existsb (has_code c) (user_wallets (wallets d) u) = false ->
  wallet_insert_ok d u (crypto_code c) (Some (mock_address c)) = true ->
  let r1 := run (generateAddress u c) d in
  fst r1 = Some (mock_address c)
  /\ fst (run (getDepositAddress u c) (snd r1)) = Some (mock_address c).
Proof.
  intros E F r1. subst r1. rewrite generateAddress_unfold, E, F. cbn [fst snd].
  split; [reflexivity |].
  unfold getDepositAddress, try_catch, ebind, getUserWallets, db_call, return_.
  cbn [bind run option_map].
  destruct (user_wallets_generated d u c E) as [_ ->].
  destruct c; reflexivity.
Qed.

Lemma generateAddress_then_getDepositAddress_witness :
  let r1 := run (generateAddress 1 BTC) sample_db in
  fst r1 = Some (mock_address BTC)
  /\ fst (run (getDepositAddress 1 BTC) (snd r1)) = Some (mock_address BTC).
Proof. apply generateAddress_then_getDepositAddress; reflexivity. Defined.

(** When the caller's first wallet in the cryptocurrency has no address
    (as [walletsRouter.create] leaves it without one), [generateAddress]
    answers the Bitcoin mock address, for ETH as well, and stores nothing,
    while [getDepositAddress] answers "Wallet not found". *)
Theorem generateAddress_addressless_wallet d u c w :
  find (has_code c) (user_wallets (wallets d) u) = Some w ->
  address w = None ->
  run (generateAddress u c) d = (Some btc_mock_address, d)
  /\ fst (run (getDepositAddress u c) d) = None.
Proof.
  intros Hw Ha.
  assert (E : existsb (has_code c) (user_wallets (wallets d) u) = true).
  { apply existsb_exists. apply find_some in Hw. exists w. exact Hw. }
  rewrite generateAddress_unfold, E, Hw, Ha. split; [reflexivity |].
  unfold getDepositAddress, try_catch, ebind, getUserWallets, db_call, return_.
  cbn [bind run option_map]. rewrite Hw, Ha. reflexivity.
Qed.

Lemma generateAddress_addressless_wallet_witness :
  let d := snd (run (create 1 "ETH" None) sample_db) in
  run (generateAddress 1 ETH) d = (Some btc_mock_address, d)
  /\ fst (run (getDepositAddress 1 ETH) d) = None.
Proof.
  intro d. apply (generateAddress_addressless_wallet d 1 ETH (mkWallet 4 1 "ETH" 0 None true));
    vm_compute; reflexivity.
Defined.

(** ** Access control of the wallet queries *)

(** [walletsRouter.getById] answers a wallet exactly when it exists and
    belongs to the caller, and [walletsRouter.getBalance] answers that
    wallet's balance and currency in the same cases; another user's wallet
    is "Wallet not found".  Neither changes the database. *)
Theorem wallet_queries_owner_only d u walletId :
  (forall w, fst (run (wallets_getById u walletId) d) = Some w <->
             find_wallet (wallets d) walletId = Some w /\ userId w = u)
  /\ fst (run (wallets_getBalance u walletId) d)
     = option_map (fun w => (balance w, currencyCode w)) (fst (run (wallets_getById u walletId) d))
  /\ snd (run (wallets_getById u walletId) d) = d
  /\ snd (run (wallets_getBalance u walletId) d) = d.
Proof.
  unfold wallets_getById, wallets_getBalance, getWalletById, try_catch, ebind, db_call, return_.
  cbn [bind run option_map].
  destruct (find_wallet (wallets d) walletId) as [w0 |]; cbn [bind run].
  - destruct (Z.eqb_spec (userId w0) u) as [Hu | Hu]; cbn [negb bind run fst snd option_map].
    + split; [| repeat split]. intro w. split.
      * intro H. injection H as <-. auto.
      * intros [H _]. exact H.
    + split; [| repeat split]. intro w. split; [discriminate |].
      intros [H1 H2]. injection H1 as <-. contradiction.
  - split; [| repeat split]. intro w. split; [discriminate | intros [H _]; discriminate].
Qed.

(** ** Transaction history *)

Lemma numbered_cons_from k (t : transaction) ts :
  combine (map Z.of_nat (seq k (List.length (t :: ts)))) (t :: ts)
  = (Z.of_nat k, t) :: combine (map Z.of_nat (seq (S k) (List.length ts))) ts.
Proof. reflexivity. Qed.

Lemma In_numbered_from k (ts : list transaction) i t :
  In (i, t) (combine (map Z.of_nat (seq k (List.length ts))) ts) ->
  Z.of_nat k <= i /\ nth_error ts (Z.to_nat i - k) = Some t.
Proof.
  revert k. induction ts as [| x ts IH]; intros k H; [destruct H |].
  rewrite numbered_cons_from in H. destruct H as [H | H].
  - injection H as <- <-. rewrite Nat2Z.id, Nat.sub_diag. split; [lia | reflexivity].
  - apply IH in H as [Hk Hn]. split; [lia |].
    replace (Z.to_nat i - k)%nat with (S (Z.to_nat i - S k)) by lia. exact Hn.
Qed.

Lemma In_firstn_l {A} n l (x : A) : In x (firstn n l) -> In x l.
Proof. intro H. rewrite <- (firstn_skipn n l). apply in_or_app. left. exact H. Qed.

Lemma In_skipn_l {A} n l (x : A) : In x (skipn n l) -> In x l.
Proof. intro H. rewrite <- (firstn_skipn n l). apply in_or_app. right. exact H. Qed.

Lemma In_user_transactions ord d u limit offset i t :
  (forall l, Permutation (ord l) l) ->
  In (i, t) (user_transactions ord d u limit offset) ->
  involves u t = true /\ 1 <= i /\ nth_error (transactions d) (Z.to_nat i - 1) = Some t.
Proof.
  unfold user_transactions. intros Hord H.
  apply In_firstn_l, In_skipn_l in H. apply (Permutation_in _ (Hord _)) in H.
  apply filter_In in H as [H Hu].
  apply In_numbered_from in H as [Hk Hn]. cbn [snd] in Hu. cbn in Hk.
  split; [exact Hu | split; [lia | exact Hn]].
Qed.

Lemma length_user_transactions ord d u limit offset :
  (List.length (user_transactions ord d u limit offset) <= limit)%nat.
Proof. unfold user_transactions. rewrite length_firstn. lia. Qed.

Lemma length_filter_le {A} (p : A -> bool) l : (List.length (filter p l) <= List.length l)%nat.
Proof. induction l as [| x l IH]; cbn [filter List.length]; [lia | destruct (p x); cbn; lia]. Qed.

Lemma transactionType_eqb_eq a b : transactionType_eqb a b = true -> a = b.
Proof. destruct a, b; cbn; congruence. Qed.

Lemma txStatus_eqb_eq a b : txStatus_eqb a b = true -> a = b.
Proof. destruct a, b; cbn; congruence. Qed.

(** Whatever order MySQL gives the rows of one [createdAt] second, every
    transaction [transactionsRouter.list] answers involves the caller (as
    sender or receiver), is the row of its id in the transactions table,
    and has the requested type and status when these filters are given;
    the answer holds at most [limit] rows and [total] is its length, not
    the number of the caller's transactions. *)
Theorem transactions_list_sound ord d u limit offset ty st :
  (forall l, Permutation (ord l) l) ->
  exists rows,
    fst (run (transactions_list ord u limit offset ty st) d) = Some (rows, List.length rows)
    /\ (List.length rows <= limit)%nat
    /\ forall i t, In (i, t) rows ->
         involves u t = true /\ 1 <= i /\ nth_error (transactions d) (Z.to_nat i - 1) = Some t
         /\ (forall y, ty = Some y -> txType t = y) /\ (forall s, st = Some s -> status t = s).
Proof.
  intro Hord.
  unfold transactions_list, getUserTransactions, try_catch, ebind, db_call, return_.
  cbn [bind run option_map fst].
  set (l := user_transactions ord d u limit offset).
  assert (Hl := length_user_transactions ord d u limit offset). fold l in Hl.
  assert (Hin := In_user_transactions ord d u limit offset). fold l in Hin.
  eexists. split; [reflexivity | split].
  - destruct ty, st;
      repeat (eapply Nat.le_trans; [apply length_filter_le |]); exact Hl.
  - intros i t H. destruct ty as [y |], st as [s |];
      repeat (apply filter_In in H as [H ?]); cbn [snd] in *;
      destruct (Hin i t Hord H) as (? & ? & ?);
      repeat split; try assumption; intros ? E; try discriminate E; injection E as <-;
      first [ apply transactionType_eqb_eq | apply txStatus_eqb_eq ]; assumption.
Qed.

Lemma transactions_list_sound_witness :
  exists rows,
    fst (run (transactions_list (@rev _) 1 10 0 None None) sample_db) = Some (rows, List.length rows)
    /\ (List.length rows <= 10)%nat
    /\ forall i t, In (i, t) rows ->
         involves 1 t = true /\ 1 <= i /\ nth_error (transactions sample_db) (Z.to_nat i - 1) = Some t
         /\ (forall y, @None transactionType = Some y -> txType t = y)
         /\ (forall s, @None txStatus = Some s -> status t = s).
Proof.
  apply (transactions_list_sound (@rev _) sample_db 1 10 0 None None).
  intro l. apply Permutation_sym, Permutation_rev.
Defined.

(** ** Repeated crypto withdrawals *)

Lemma initiateWithdrawal_accepted d u input w a :
  crypto_wallet_of d u (cw_cryptocurrency input) = Some w ->
  dltb (parseFloat (units (balance w))) (parseFloat (cw_amount input)) = false ->
  numeral_to_decimal (cw_amount input) = Some a ->
  fits_int u = true -> fits_int (w_id w) = true ->
  exists t, run (initiateWithdrawal u input) d
            = (Success "Withdrawal initiated successfully", db_insert_transaction d t).
Proof.
  intros Hw Hb Ha Hu Hwi. rewrite initiateWithdrawal_unfold, Hw, Hb.
  rewrite (store_crypto_withdrawal u w input a Ha Hu Hwi). eexists. reflexivity.
Qed.

Lemma run_ops_cons o os d :
  run_ops (o :: os) d =
  let (r, d1) := run_op o d in
  let (rs, d2) := run_ops os d1 in
  (r :: rs, d2).
Proof. reflexivity. Qed.

(** Since a pending crypto withdrawal debits nothing, any number of
    [initiateWithdrawal] requests on the same wallet, each passing the
    check [parseFloat(balance) < parseFloat(amount)] against the unchanged
    balance and each with a record that fits its columns, all succeed: the
    wallets stay as they were, one record is added per request and
    [cryptoRouter.getBalance] still answers the original balance, so the
    amounts together may exceed the balance. *)
Theorem initiateWithdrawal_repeated d u c w ins :
  crypto_wallet_of d u c = Some w ->
  fits_int u = true -> fits_int (w_id w) = true ->
  Forall (fun i => cw_cryptocurrency i = c
                   /\ dltb (parseFloat (units (balance w))) (parseFloat (cw_amount i)) = false
                   /\ numeral_to_decimal (cw_amount i) <> None) ins ->
  let r := run_ops (map (OpInitiateWithdrawal u) ins) d in
  fst r = repeat (Success "Withdrawal initiated successfully") (List.length ins)
  /\ wallets (snd r) = wallets d
  /\ List.length (transactions (snd r)) = (List.length (transactions d) + List.length ins)%nat
  /\ fst (run (crypto_getBalance u c) (snd r)) = Some (balance w, address w).
Proof.
  intros Hw Hu Hwi Hall.
  enough (H : forall d', wallets d' = wallets d ->
                fst (run (crypto_getBalance u c) d') = Some (balance w, address w)).
  { intro r. assert (Hm : fst r = repeat (Success "Withdrawal initiated successfully") (List.length ins)
      /\ wallets (snd r) = wallets d
      /\ List.length (transactions (snd r)) = (List.length (transactions d) + List.length ins)%nat).
    2: { destruct Hm as (H1 & H2 & H3). repeat split; auto. }
    unfold r. clear r H. revert d Hw. induction Hall as [| i ins [Hc [Hb Ha]] _ IH]; intros d Hw.
    - cbn. split; [reflexivity | split; [reflexivity | lia]].
    - subst c. rewrite map_cons, run_ops_cons. unfold run_op.
      destruct (numeral_to_decimal (cw_amount i)) as [a |] eqn:Ea; [| contradiction].
      destruct (initiateWithdrawal_accepted d u i w a Hw Hb Ea Hu Hwi) as [t ->].
      set (d1 := db_insert_transaction d t).
      assert (Hw1 : crypto_wallet_of d1 u (cw_cryptocurrency i) = Some w) by exact Hw.
      destruct (IH d1 Hw1) as (H1 & H2 & H3).
      destruct (run_ops (map (OpInitiateWithdrawal u) ins) d1) as [rs d2]. cbn [fst snd] in *.
      rewrite H1, H2, H3. unfold d1. cbn [transactions wallets db_insert_transaction].
      rewrite length_app. cbn [List.length repeat].
      split; [reflexivity | split; [reflexivity | lia]]. }
  intros d' Hd'.
  unfold crypto_getBalance, try_catch, ebind, getUserWallets, db_call, return_.
  cbn [bind run option_map]. rewrite Hd'.
  unfold crypto_wallet_of in Hw. unfold has_code. rewrite Hw. reflexivity.
Qed.

Lemma initiateWithdrawal_repeated_witness :
  let ins := [mkCryptoWithdrawalInput BTC (units 100) "1BoatSLRHtKNngkdXEeobR76b53LETtpyT";
              mkCryptoWithdrawalInput BTC (units 100) "1BoatSLRHtKNngkdXEeobR76b53LETtpyT"] in
  let r := run_ops (map (OpInitiateWithdrawal 1) ins) crypto_db in
  fst r = repeat (Success "Withdrawal initiated successfully") (List.length ins)
  /\ wallets (snd r) = wallets crypto_db
  /\ List.length (transactions (snd r)) = (List.length (transactions crypto_db) + List.length ins)%nat
  /\ fst (run (crypto_getBalance 1 BTC) (snd r)) = Some (100, Some "1A1z7agoat4FqCnf4Xy2MQUqLCWCuqq2em").
Proof.
  apply (initiateWithdrawal_repeated crypto_db 1 BTC
           (mkWallet 1 1 "BTC" 100 (Some "1A1z7agoat4FqCnf4Xy2MQUqLCWCuqq2em") true)).
  - reflexivity.
  - reflexivity.
  - reflexivity.
  - repeat (apply Forall_cons; [split; [reflexivity | split; [vm_compute; reflexivity
                                                             | vm_compute; discriminate]] |]).
    apply Forall_nil.
Defined.
